(** * qt-ingot: the camera-on-a-scene viewport, its scene registry and its drawables

    A shallow embedding of [ingot/scene/drawable.py], [ingot/scene/manager.py]
    and [ingot/scene/view.py], and the properties of the specification that
    concern them; then of their painting, of [ingot/actions/manager.py] and of
    the tabs of [ingot/workspace.py], with further properties of the code.

    Conventions of the embedding.
    - Python floats (scene and screen coordinates, zoom) are exact rationals
      [Q]; equalities between computed coordinates are stated with [==].
      True division raises [ZeroDivisionError] on a zero divisor, as in Python.
    - An exception is a value of [exn]; a method that can raise returns a
      [result], and an event handler of the view runs in the monad [M], which
      threads the widget, collects what the handler sends out (signals,
      repaint requests, calls into items) and keeps the widget as it was at the
      moment an exception left the handler.
    - An object is a record with an [oid]; two records are the same object when
      they are equal. *)

From Stdlib Require Import QArith ZArith List String Bool Lia Lqa.
From Stdlib Require Import Permutation Sorted DecimalString.
Import ListNotations.

Local Open Scope Q_scope.

(** ** Python values *)

Inductive exn : Type :=
| ZeroDivisionError
| NameError (name : string).

Inductive result (A : Type) : Type :=
| Ok (a : A)
| Err (e : exn).

Arguments Ok {A} a.
Arguments Err {A} e.

Definition result_bind {A B : Type} (r : result A) (k : A -> result B) : result B :=
  match r with
  | Ok a => k a
  | Err e => Err e
  end.

Declare Scope res_scope.
Delimit Scope res_scope with res.
Notation "x <- e ;; k" := (result_bind e (fun x => k))
  (at level 61, e at next level, right associativity) : res_scope.

(** [a / b] on floats. *)
Definition truediv (a b : Q) : result Q :=
  if Qeq_bool b 0 then Err ZeroDivisionError else Ok (a / b).

(** [a < b] on floats. *)
Definition Qlt_bool (a b : Q) : bool := negb (Qle_bool b a).

(** The builtins [min(a, b)] and [max(a, b)]: the first argument is kept unless
    the second is strictly smaller (larger). *)
Definition py_min (a b : Q) : Q := if Qlt_bool b a then b else a.
Definition py_max (a b : Q) : Q := if Qlt_bool a b then b else a.

(** ** Qt values *)

Record QPointF : Type := mkQPointF { px : Q; py : Q }.

Record QColor : Type := mkQColor { red : Z; green : Z; blue : Z; alpha : Z }.

(** Two points with equal coordinates. *)
Definition peq (p q : QPointF) : Prop := px p == px q /\ py p == py q.

(** ** drawable.py *)

Module Drawable.

(** The concrete subclasses of [Drawable] with the attributes each one adds.
    [WidgetWrapper] keeps the measured size of the widget it wraps. *)
Inductive shape : Type :=
| Rectangle (width height : Q) (color border_color : QColor)
| Ellipse (width height : Q) (color border_color : QColor)
| Text (text : string) (font_size : Z) (color : QColor)
| WidgetWrapper (width height : Q).

(** The attributes set by [Drawable.__init__], with the identity of the object. *)
Record t : Type := mk {
  oid : nat;
  x : Q;
  y : Q;
  z_index : Z;
  visible : bool;
  locked : bool;
  kind : shape
}.

(** [self.x <= point.x() <= self.x + w and self.y <= point.y() <= self.y + h] *)
Definition in_box (self : t) (w h : Q) (point : QPointF) : bool :=
  (Qle_bool (x self) (px point) && Qle_bool (px point) (x self + w))
  && (Qle_bool (y self) (py point) && Qle_bool (py point) (y self + h)).

Definition contains_point (self : t) (point : QPointF) : result bool :=
  match kind self with
  | Rectangle width height _ _ => Ok (in_box self width height point)
  | Ellipse width height _ _ =>
      let centered_x := px point - (x self + width / 2) in
      let centered_y := py point - (y self + height / 2) in
      let a := width / 2 in
      let b := height / 2 in
      (tx <- truediv (centered_x ^ 2) (a ^ 2) ;;
       ty <- truediv (centered_y ^ 2) (b ^ 2) ;;
       Ok (Qle_bool (tx + ty) 1))%res
  | Text _ _ _ => Ok (in_box self 100 20 point)
  | WidgetWrapper width height => Ok (in_box self width height point)
  end.


(** [item.color] when [hasattr(item, 'color')]. *)
Definition color (self : t) : option QColor :=
  match kind self with
  | Rectangle _ _ c _ => Some c
  | Ellipse _ _ c _ => Some c
  | Text _ _ c => Some c
  | WidgetWrapper _ _ => None
  end.

(** The data-model invariant of the specification: no negative size. *)
Definition size_nonneg (self : t) : Prop :=
  match kind self with
  | Rectangle width height _ _ => 0 <= width /\ 0 <= height
  | Ellipse width height _ _ => 0 <= width /\ 0 <= height
  | Text _ _ _ => True
  | WidgetWrapper width height => 0 <= width /\ 0 <= height
  end.

(** An ellipse of zero width or height. *)
Definition degenerate (self : t) : bool :=
  match kind self with
  | Ellipse width height _ _ => Qeq_bool width 0 || Qeq_bool height 0
  | _ => false
  end.

(** Object identity: what [==] is on instances of a class without [__eq__]. *)
Definition eq_dec (a b : t) : {a = b} + {a <> b}.
Proof.
  assert (Hq : forall p q : Q, {p = q} + {p <> q})
    by (decide equality; [apply Pos.eq_dec | apply Z.eq_dec]).
  assert (Hc : forall c d : QColor, {c = d} + {c <> d})
    by (decide equality; apply Z.eq_dec).
  decide equality;
    try solve [apply Hq | apply Z.eq_dec | apply Bool.bool_dec | apply Nat.eq_dec].
  decide equality;
    solve [apply Hq | apply Hc | apply Z.eq_dec | apply String.string_dec].
Defined.

(** An item the pointer can reach: [item.visible and not item.locked]. *)
Definition interactive (self : t) : bool := visible self && negb (locked self).

(** An item that takes a click at [pos], and one that does not (out of reach,
    or not containing [pos]). *)
Definition hit (pos : QPointF) (self : t) : Prop :=
  interactive self = true /\ contains_point self pos = Ok true.

(** The order of drawing, and the items of one layer. *)
Definition z_le (a b : t) : Prop := (z_index a <= z_index b)%Z.
Definition has_z (k : Z) (a : t) : bool := (z_index a =? k)%Z.

End Drawable.

(** ** manager.py *)

Module SceneManager.

Inductive signal : Type :=
| items_changed
| scene_changed.

Record t : Type := mk {
  _items : list Drawable.t;
  _items_changed : bool
}.

(** [SceneManager()] *)
Definition init : t := {| _items := []; _items_changed := false |}.

(** Python's sort is stable, and a stable sort by a key has one possible
    result; it is computed here by insertion: an item is placed in front of the
    first item whose key is not smaller. *)
Fixpoint insert_by_z (item : Drawable.t) (sorted : list Drawable.t) : list Drawable.t :=
  match sorted with
  | [] => [item]
  | other :: rest =>
      if (Drawable.z_index item <=? Drawable.z_index other)%Z
      then item :: other :: rest
      else other :: insert_by_z item rest
  end.

(** [sorted(items, key=lambda x: x.z_index)] and [items.sort(key=...)] *)
Definition sorted_by_z (items : list Drawable.t) : list Drawable.t :=
  fold_right insert_by_z [] items.

Definition get_items (self : t) : list Drawable.t :=
  sorted_by_z (_items self).

Definition add_item (self : t) (item : Drawable.t) : t * list signal :=
  ({| _items := sorted_by_z (_items self ++ [item]); _items_changed := true |},
   [items_changed; scene_changed]).

(** [list.remove]: the first occurrence goes. *)
Fixpoint list_remove (item : Drawable.t) (items : list Drawable.t) : list Drawable.t :=
  match items with
  | [] => []
  | other :: rest =>
      if Drawable.eq_dec other item then rest else other :: list_remove item rest
  end.

Definition remove_item (self : t) (item : Drawable.t) : t * list signal :=
  if in_dec Drawable.eq_dec item (_items self)
  then ({| _items := list_remove item (_items self); _items_changed := true |},
        [items_changed; scene_changed])
  else (self, []).

Definition clear_items (self : t) : t * list signal :=
  ({| _items := []; _items_changed := true |}, [items_changed; scene_changed]).

(** The loop of [get_item_at_position] over the items still to visit. Every
    item is a [Drawable], so the [hasattr] tests hold. *)
Fixpoint first_containing (items : list Drawable.t) (pos : QPointF)
  : result (option Drawable.t) :=
  match items with
  | [] => Ok None
  | item :: rest =>
      if Drawable.visible item && negb (Drawable.locked item)
      then (hit <- Drawable.contains_point item pos ;;
            if (hit : bool) then Ok (Some item) else first_containing rest pos)%res
      else first_containing rest pos
  end.

Definition get_item_at_position (self : t) (pos : QPointF) : result (option Drawable.t) :=
  first_containing (rev (_items self)) pos.

Definition get_items_in_rect (self : t) (x y width height : Q) : list Drawable.t :=
  let rect_x1 := x in
  let rect_y1 := y in
  let rect_x2 := x + width in
  let rect_y2 := y + height in
  filter (fun item =>
            (Drawable.visible item && negb (Drawable.locked item))
            && ((Qle_bool rect_x1 (Drawable.x item) && Qle_bool (Drawable.x item) rect_x2)
                && (Qle_bool rect_y1 (Drawable.y item) && Qle_bool (Drawable.y item) rect_y2)))
         (_items self).

(** The mutators of the registry, and a registry after a sequence of them. *)
Inductive op : Type :=
| Add (item : Drawable.t)
| Remove (item : Drawable.t)
| Clear.

Definition apply (self : t) (o : op) : t :=
  match o with
  | Add item => fst (add_item self item)
  | Remove item => fst (remove_item self item)
  | Clear => fst (clear_items self)
  end.

Definition run (ops : list op) : t := fold_left apply ops init.

(** The items in the order they were inserted: what the same calls leave in a
    list that is appended to and never sorted. *)
Definition log_apply (log : list Drawable.t) (o : op) : list Drawable.t :=
  match o with
  | Add item => log ++ [item]
  | Remove item => list_remove item log
  | Clear => []
  end.

Definition insertion_log (ops : list op) : list Drawable.t := fold_left log_apply ops [].

(** The stored list is sorted, holds the inserted items that were not removed,
    and keeps every layer in insertion order. *)
Definition registry_inv (items log : list Drawable.t) : Prop :=
  StronglySorted Drawable.z_le items
  /\ Permutation items log
  /\ forall k, filter (Drawable.has_z k) items = filter (Drawable.has_z k) log.

End SceneManager.

(** ** view.py *)

Module SceneView.

Inductive MouseButton : Type :=
| LeftButton
| MiddleButton
| RightButton
| OtherButton.

Inductive Key : Type :=
| Key_Left | Key_Right | Key_Up | Key_Down
| Key_Plus | Key_Equal | Key_Minus | Key_0
| Key_Home | Key_H
| Key_Other.

(** The dictionary sent with [status_updated]. *)
Record status : Type := mkStatus {
  screen_pos : QPointF;
  scene_pos : QPointF;
  color : QColor;
  zoom : Q
}.

(** What a handler sends out of the widget. *)
Inductive effect : Type :=
| update                                             (* self.update() *)
| status_updated (s : status)                        (* self.status_updated.emit(s) *)
| on_clicked (item : Drawable.t) (point : QPointF)   (* item.on_clicked(point) *)
| accept.                                            (* event.accept() *)

(** The attributes set by [SceneView.__init__], with the size Qt keeps for the
    widget ([self.width()], [self.height()]). *)
Record t : Type := mk {
  _position : QPointF;
  _zoom : Q;
  _is_panning : bool;
  _pan_start_pos : QPointF;
  _camera_start_pos : QPointF;
  _last_mouse_pos : QPointF;
  _scope_visible : bool;
  _scene_manager : SceneManager.t;
  width : Z;
  height : Z
}.

(** [self._min_zoom] and [self._max_zoom] are assigned in [__init__] only. *)
Definition _min_zoom : Q := 0.01.
Definition _max_zoom : Q := 100.

(** [SceneView(scene_manager)], shown with the given size. *)
Definition init (scene_manager : SceneManager.t) (w h : Z) : t :=
  {| _position := mkQPointF 0 0;
     _zoom := 1;
     _is_panning := false;
     _pan_start_pos := mkQPointF 0 0;
     _camera_start_pos := mkQPointF 0 0;
     _last_mouse_pos := mkQPointF 0 0;
     _scope_visible := true;
     _scene_manager := scene_manager;
     width := w;
     height := h |}.

(** Assignments to one attribute. *)
Definition set_position (p : QPointF) (v : t) : t :=
  mk p (_zoom v) (_is_panning v) (_pan_start_pos v) (_camera_start_pos v)
     (_last_mouse_pos v) (_scope_visible v) (_scene_manager v) (width v) (height v).
Definition set_zoom (z : Q) (v : t) : t :=
  mk (_position v) z (_is_panning v) (_pan_start_pos v) (_camera_start_pos v)
     (_last_mouse_pos v) (_scope_visible v) (_scene_manager v) (width v) (height v).
Definition set_is_panning (b : bool) (v : t) : t :=
  mk (_position v) (_zoom v) b (_pan_start_pos v) (_camera_start_pos v)
     (_last_mouse_pos v) (_scope_visible v) (_scene_manager v) (width v) (height v).
Definition set_pan_start_pos (p : QPointF) (v : t) : t :=
  mk (_position v) (_zoom v) (_is_panning v) p (_camera_start_pos v)
     (_last_mouse_pos v) (_scope_visible v) (_scene_manager v) (width v) (height v).
Definition set_camera_start_pos (p : QPointF) (v : t) : t :=
  mk (_position v) (_zoom v) (_is_panning v) (_pan_start_pos v) p
     (_last_mouse_pos v) (_scope_visible v) (_scene_manager v) (width v) (height v).
Definition set_last_mouse_pos (p : QPointF) (v : t) : t :=
  mk (_position v) (_zoom v) (_is_panning v) (_pan_start_pos v) (_camera_start_pos v)
     p (_scope_visible v) (_scene_manager v) (width v) (height v).
Definition set_scope_visible (b : bool) (v : t) : t :=
  mk (_position v) (_zoom v) (_is_panning v) (_pan_start_pos v) (_camera_start_pos v)
     (_last_mouse_pos v) b (_scene_manager v) (width v) (height v).

(** *** The monad of the handlers *)

Inductive outcome (A : Type) : Type :=
| Returned (a : A) (v : t) (out : list effect)
| Raised (e : exn) (v : t) (out : list effect).

Arguments Returned {A} a v out.
Arguments Raised {A} e v out.

Definition M (A : Type) : Type := t -> outcome A.

Definition ret {A : Type} (a : A) : M A := fun v => Returned a v [].

Definition bind {A B : Type} (m : M A) (k : A -> M B) : M B :=
  fun v =>
    match m v with
    | Returned a v1 out1 =>
        match k a v1 with
        | Returned b v2 out2 => Returned b v2 (out1 ++ out2)
        | Raised e v2 out2 => Raised e v2 (out1 ++ out2)
        end
    | Raised e v1 out1 => Raised e v1 out1
    end.

Declare Scope view_scope.
Delimit Scope view_scope with view.
Notation "x <- e ;; k" := (bind e (fun x => k))
  (at level 61, e at next level, right associativity) : view_scope.
Notation "e ;; k" := (bind e (fun _ => k))
  (at level 61, right associativity) : view_scope.

Definition get : M t := fun v => Returned v v [].
Definition modify (f : t -> t) : M unit := fun v => Returned tt (f v) [].
Definition emit (e : effect) : M unit := fun v => Returned tt v [e].
Definition lift {A : Type} (r : result A) : M A :=
  fun v => match r with Ok a => Returned a v [] | Err e => Raised e v [] end.

(** The widget and the output a handler leaves, however it ended. *)
Definition final {A : Type} (o : outcome A) : t :=
  match o with Returned _ v _ => v | Raised _ v _ => v end.
Definition output {A : Type} (o : outcome A) : list effect :=
  match o with Returned _ _ out => out | Raised _ _ out => out end.
Definition returned {A : Type} (o : outcome A) : bool :=
  match o with Returned _ _ _ => true | Raised _ _ _ => false end.

(** *** Names *)

(** The names bound at the top level of [view.py]: its imports and its class.
    A name used in a method and not assigned there is looked up here. *)
Definition module_globals : list string :=
  ["QWidget"; "pyqtSignal"; "QPointF"; "Qt"; "QRect"; "QPainter"; "QCursor";
   "QMouseEvent"; "QWheelEvent"; "QRadialGradient"; "QColor"; "QKeyEvent";
   "List"; "Drawable"; "SceneManager"; "SceneView"]%string.

Definition load_global (name : string) : result unit :=
  if existsb (String.eqb name) module_globals then Ok tt else Err (NameError name).

(** *** Coordinate transforms *)

(** [self.width() / 2.0] and [self.height() / 2.0] *)
Definition widget_center_x (self : t) : Q := inject_Z (width self) / 2.
Definition widget_center_y (self : t) : Q := inject_Z (height self) / 2.

Definition _screen_to_scene_with_zoom (self : t) (screen_pos : QPointF) (zoom_level : Q)
  : result QPointF :=
  let widget_center_x := widget_center_x self in
  let widget_center_y := widget_center_y self in
  let rel_x := px screen_pos - widget_center_x in
  let rel_y := py screen_pos - widget_center_y in
  (dx <- truediv rel_x zoom_level ;;
   dy <- truediv rel_y zoom_level ;;
   let scene_x := px (_position self) + dx in
   let scene_y := py (_position self) + dy in
   Ok (mkQPointF scene_x scene_y))%res.

Definition _screen_to_scene (self : t) (screen_pos : QPointF) : result QPointF :=
  _screen_to_scene_with_zoom self screen_pos (_zoom self).


(** *** Camera operations *)

Local Open Scope view_scope.

Definition _zoom_to_cursor (cursor_pos : QPointF) (zoom_factor : Q) : M unit :=
  self <- get ;;
  let old_zoom := _zoom self in
  let old_position := _position self in
  scene_pos_before <- lift (_screen_to_scene self cursor_pos) ;;
  let new_zoom := py_max _min_zoom (py_min _max_zoom (_zoom self * zoom_factor)) in
  modify (set_zoom new_zoom) ;;
  self <- get ;;
  scene_pos_after <- lift (_screen_to_scene_with_zoom self cursor_pos (_zoom self)) ;;
  let delta_scene :=
    mkQPointF (px scene_pos_after - px scene_pos_before)
              (py scene_pos_after - py scene_pos_before) in
  modify (set_position (mkQPointF (px old_position - px delta_scene)
                                  (py old_position - py delta_scene))).

Definition _reset_zoom : M unit :=
  self <- get ;;
  let center_pos := mkQPointF (widget_center_x self) (widget_center_y self) in
  factor <- lift (truediv 1 (_zoom self)) ;;
  _zoom_to_cursor center_pos factor.

Definition _center_on (scene_pos : QPointF) : M unit :=
  modify (set_position (mkQPointF (px scene_pos) (py scene_pos))).

(** The loop of [_emit_status] over the items still to visit: the colour of
    the first interactive item that contains the point, when it has one. *)
Fixpoint sample_color (items : list Drawable.t) (scene_pos : QPointF) (color : QColor)
  : result QColor :=
  match items with
  | [] => Ok color
  | item :: rest =>
      if Drawable.visible item && negb (Drawable.locked item)
      then (hit <- Drawable.contains_point item scene_pos ;;
            if (hit : bool)
            then Ok (match Drawable.color item with Some c => c | None => color end)
            else sample_color rest scene_pos color)%res
      else sample_color rest scene_pos color
  end.

Definition _emit_status : M unit :=
  self <- get ;;
  scene_pos <- lift (_screen_to_scene self (_last_mouse_pos self)) ;;
  color <- lift (sample_color (rev (SceneManager.get_items (_scene_manager self)))
                              scene_pos (mkQColor 100 100 100 255)) ;;
  emit (status_updated {| screen_pos := _last_mouse_pos self;
                          scene_pos := scene_pos;
                          color := color;
                          zoom := _zoom self |}).

Definition set_zoom_level (level : Q) : M unit :=
  modify (set_zoom (py_max _min_zoom (py_min _max_zoom level))) ;;
  emit update ;;
  _emit_status.

(** *** Event handlers *)

(** The loop of [mousePressEvent] over the items still to visit. *)
Fixpoint click_items (items : list Drawable.t) (scene_pos : QPointF) : M unit :=
  match items with
  | [] => ret tt
  | item :: rest =>
      if Drawable.visible item && negb (Drawable.locked item)
      then hit <- lift (Drawable.contains_point item scene_pos) ;;
           if (hit : bool)
           then emit (on_clicked item scene_pos)
           else click_items rest scene_pos
      else click_items rest scene_pos
  end.

Definition is_button (a b : MouseButton) : bool :=
  match a, b with
  | LeftButton, LeftButton | MiddleButton, MiddleButton
  | RightButton, RightButton | OtherButton, OtherButton => true
  | _, _ => false
  end.

(** [alt] is whether [QApplication.keyboardModifiers()] has the Alt bit. *)
Definition mousePressEvent (button : MouseButton) (pos : QPointF) (alt : bool) : M unit :=
  let alt_modifier := alt in
  let left_button := is_button button LeftButton in
  let middle_button := is_button button MiddleButton in
  (if middle_button || (left_button && alt_modifier)
   then
     modify (set_pan_start_pos (mkQPointF (px pos) (py pos))) ;;
     self <- get ;;
     modify (set_camera_start_pos (_position self)) ;;
     modify (set_is_panning true)
   else
     self <- get ;;
     scene_pos <- lift (_screen_to_scene self (mkQPointF (px pos) (py pos))) ;;
     click_items (rev (SceneManager.get_items (_scene_manager self))) scene_pos) ;;
  modify (set_last_mouse_pos (mkQPointF (px pos) (py pos))) ;;
  emit accept.

Definition mouseMoveEvent (pos : QPointF) : M unit :=
  let mouse_pos := mkQPointF (px pos) (py pos) in
  modify (set_last_mouse_pos mouse_pos) ;;
  self <- get ;;
  (if _is_panning self
   then
     let screen_delta := mkQPointF (px mouse_pos - px (_pan_start_pos self))
                                   (py mouse_pos - py (_pan_start_pos self)) in
     dx <- lift (truediv (- px screen_delta) (_zoom self)) ;;
     dy <- lift (truediv (- py screen_delta) (_zoom self)) ;;
     let scene_delta := mkQPointF dx dy in
     let new_pos := mkQPointF (px (_camera_start_pos self) + px scene_delta)
                              (py (_camera_start_pos self) + py scene_delta) in
     modify (set_position new_pos)
   else ret tt) ;;
  emit update ;;
  _emit_status ;;
  emit accept.

(** The test of [mouseReleaseEvent],
    [button == Middle or (button == Left and (self._is_panning and
    QApplication.keyboardModifiers() & Alt))], evaluated left to right. *)
Definition release_ends_pan (button : MouseButton) (alt : bool) : M bool :=
  if is_button button MiddleButton then ret true
  else if is_button button LeftButton then
    self <- get ;;
    if _is_panning self
    then lift (load_global "QApplication") ;; ret alt
    else ret false
  else ret false.

Definition mouseReleaseEvent (button : MouseButton) (alt : bool) : M unit :=
  ends <- release_ends_pan button alt ;;
  (if (ends : bool)
   then
     modify (set_is_panning false) ;;
     modify (set_pan_start_pos (mkQPointF 0 0)) ;;
     modify (set_camera_start_pos (mkQPointF 0 0))
   else ret tt) ;;
  emit accept.

Definition wheelEvent (pos : QPointF) (angle_delta_y : Z) : M unit :=
  let mouse_pos := mkQPointF (px pos) (py pos) in
  (if (angle_delta_y >? 0)%Z
   then _zoom_to_cursor mouse_pos 1.25
   else _zoom_to_cursor mouse_pos (1 / 1.25)) ;;
  emit accept.

(** [self._last_mouse_pos if self._last_mouse_pos != QPointF(0, 0)
     else QPointF(self.width()/2, self.height()/2)] *)
Definition zoom_anchor (self : t) : QPointF :=
  if negb (Qeq_bool (px (_last_mouse_pos self)) 0 && Qeq_bool (py (_last_mouse_pos self)) 0)
  then _last_mouse_pos self
  else mkQPointF (widget_center_x self) (widget_center_y self).

Definition keyPressEvent (key : Key) : M unit :=
  self <- get ;;
  step_size <- (if Qlt_bool (_zoom self) 1
                then lift (truediv 20 (_zoom self))
                else ret (20 * _zoom self)) ;;
  match key with
  | Key_Left =>
      modify (set_position (mkQPointF (px (_position self) - step_size) (py (_position self))))
  | Key_Right =>
      modify (set_position (mkQPointF (px (_position self) + step_size) (py (_position self))))
  | Key_Up =>
      modify (set_position (mkQPointF (px (_position self)) (py (_position self) - step_size)))
  | Key_Down =>
      modify (set_position (mkQPointF (px (_position self)) (py (_position self) + step_size)))
  | Key_Plus | Key_Equal => _zoom_to_cursor (zoom_anchor self) 1.25
  | Key_Minus => _zoom_to_cursor (zoom_anchor self) (1 / 1.25)
  | Key_0 => _reset_zoom
  | Key_Home => _center_on (mkQPointF 0 0)
  | Key_H => _center_on (mkQPointF 0 0)
  | Key_Other => ret tt
  end ;;
  _emit_status ;;
  emit accept.

(** *** The commands of the tab container *)

Definition toggle_scope : M unit :=
  self <- get ;;
  modify (set_scope_visible (negb (_scope_visible self))) ;;
  emit update.

Definition zoom_in : M unit :=
  self <- get ;; _zoom_to_cursor (zoom_anchor self) 1.25.

Definition zoom_out : M unit :=
  self <- get ;; _zoom_to_cursor (zoom_anchor self) (1 / 1.25).

Definition pan_by (dx dy : Q) : M unit :=
  self <- get ;;
  modify (set_position (mkQPointF (px (_position self) + dx) (py (_position self) + dy))) ;;
  emit update.


Definition center_on_position (x y : Q) : M unit := _center_on (mkQPointF x y).

(** *** Input *)

Inductive event : Type :=
| MousePress (button : MouseButton) (pos : QPointF) (alt : bool)
| MouseMove (pos : QPointF)
| MouseRelease (button : MouseButton) (alt : bool)
| Wheel (pos : QPointF) (angle_delta_y : Z)
| KeyPress (key : Key).

Definition handle (ev : event) : M unit :=
  match ev with
  | MousePress button pos alt => mousePressEvent button pos alt
  | MouseMove pos => mouseMoveEvent pos
  | MouseRelease button alt => mouseReleaseEvent button alt
  | Wheel pos angle_delta_y => wheelEvent pos angle_delta_y
  | KeyPress key => keyPressEvent key
  end.

(** Events are handled in the order they arrive; an exception that leaves a
    handler ends the run. *)
Fixpoint handle_all (evs : list event) : M unit :=
  match evs with
  | [] => ret tt
  | ev :: rest => handle ev ;; handle_all rest
  end.


(** A pan that began at screen point [P0] on the widget [v0] is in progress. *)
Definition panning_from (v0 : t) (P0 : QPointF) (v : t) : Prop :=
  _is_panning v = true
  /\ _pan_start_pos v = mkQPointF (px P0) (py P0)
  /\ _camera_start_pos v = _position v0
  /\ _zoom v = _zoom v0
  /\ width v = width v0
  /\ height v = height v0.

(** The status snapshots among what was sent out. *)
Definition statuses (out : list effect) : list status :=
  flat_map (fun e => match e with status_updated s => [s] | _ => [] end) out.

(** The items whose [on_clicked] was called. *)
Definition clicked (out : list effect) : list Drawable.t :=
  flat_map (fun e => match e with on_clicked item _ => [item] | _ => [] end) out.

End SceneView.

(** ** Painting: QPainter, the paint methods of drawable.py and of view.py *)

Module Painting.

(** A world transform made of scalings and translations: the point [(x, y)]
    goes to [(m11 * x + dx, m22 * y + dy)]. *)
Record QTransform : Type := mkQTransform { m11 : Q; m22 : Q; dx : Q; dy : Q }.

Definition identity : QTransform := mkQTransform 1 1 0 0.


(** The argument of [setPen]: a [QPen(color, width)] or a bare [QColor]. *)
Inductive pen : Type :=
| QPen (color : QColor) (width : Z)
| pen_of_color (color : QColor).

Inductive brush : Type :=
| NoBrush
| QBrush (color : QColor).

(** A [QFont()], with the point size when [setPointSize] was called. *)
Record QFont : Type := mkQFont { point_size : option Z }.

(** [QRadialGradient(cx, cy, radius)] with its colour stops. *)
Record QRadialGradient : Type := mkQRadialGradient {
  cx : Q;
  cy : Q;
  radius : Q;
  stops : list (Q * QColor)
}.

Inductive primitive : Type :=
| drawRect (x y w h : Q)
| drawEllipse (x y w h : Q)
| drawText (x y : Q) (text : string)
| drawLine (x1 y1 x2 y2 : Z)
| drawPoint (x y : Z)
| fillRect (x y w h : Z) (gradient : QRadialGradient).

(** The part of the painter that [save] and [restore] push and pop. *)
Record style : Type := mkStyle {
  world : QTransform;
  the_pen : pen;
  the_brush : brush;
  the_font : QFont;
  antialiasing : bool
}.

(** A drawing call with the style it was made under. *)
Record drawn : Type := mkDrawn { what : primitive; how : style }.

Record QPainter : Type := mkQPainter {
  current : style;
  saved : list style;
  canvas : list drawn
}.

(** [QPainter(widget)]: a black pen, no brush, the default font, no transform. *)
Definition begin : QPainter :=
  mkQPainter (mkStyle identity (pen_of_color (mkQColor 0 0 0 255)) NoBrush (mkQFont None) false)
             [] [].

Definition with_style (f : style -> style) (painter : QPainter) : QPainter :=
  mkQPainter (f (current painter)) (saved painter) (canvas painter).

Definition save (painter : QPainter) : QPainter :=
  mkQPainter (current painter) (current painter :: saved painter) (canvas painter).

(** [restore] without a matching [save] changes nothing (Qt prints a warning). *)
Definition restore (painter : QPainter) : QPainter :=
  match saved painter with
  | [] => painter
  | s :: rest => mkQPainter s rest (canvas painter)
  end.

Definition setPen (p : pen) : QPainter -> QPainter :=
  with_style (fun s => mkStyle (world s) p (the_brush s) (the_font s) (antialiasing s)).
Definition setBrush (b : brush) : QPainter -> QPainter :=
  with_style (fun s => mkStyle (world s) (the_pen s) b (the_font s) (antialiasing s)).
Definition setFont (f : QFont) : QPainter -> QPainter :=
  with_style (fun s => mkStyle (world s) (the_pen s) (the_brush s) f (antialiasing s)).
Definition setRenderHint_Antialiasing : QPainter -> QPainter :=
  with_style (fun s => mkStyle (world s) (the_pen s) (the_brush s) (the_font s) true).
Definition setTransform (t : QTransform) : QPainter -> QPainter :=
  with_style (fun s => mkStyle t (the_pen s) (the_brush s) (the_font s) (antialiasing s)).
Definition resetTransform : QPainter -> QPainter := setTransform identity.

(** [scale] and [translate] act on the coordinate system in place: what is
    drawn afterwards is scaled, or moved, before the earlier transform applies. *)
Definition scale (sx sy : Q) (painter : QPainter) : QPainter :=
  let t := world (current painter) in
  setTransform (mkQTransform (m11 t * sx) (m22 t * sy) (dx t) (dy t)) painter.
Definition translate (tx ty : Q) (painter : QPainter) : QPainter :=
  let t := world (current painter) in
  setTransform (mkQTransform (m11 t) (m22 t) (dx t + m11 t * tx) (dy t + m22 t * ty)) painter.

Definition draw (prim : primitive) (painter : QPainter) : QPainter :=
  mkQPainter (current painter) (saved painter)
             (canvas painter ++ [mkDrawn prim (current painter)]).

(** [int(x)] on a float: the fraction is dropped. *)
Definition int (x : Q) : Z := Z.quot (Qnum x) (Z.pos (Qden x)).

(** *** drawable.py *)

(** [Rectangle.paint], [Ellipse.paint], [Text.paint] and [WidgetWrapper.paint]. *)
Definition paint (self : Drawable.t) (painter : QPainter) : QPainter :=
  if negb (Drawable.visible self) then painter
  else
    match Drawable.kind self with
    | Drawable.Rectangle width height color border_color =>
        let painter := save painter in
        let painter := setPen (QPen border_color 1) painter in
        let painter := setBrush (QBrush color) painter in
        let painter :=
          draw (drawRect (Drawable.x self) (Drawable.y self) width height) painter in
        restore painter
    | Drawable.Ellipse width height color border_color =>
        let painter := save painter in
        let painter := setPen (QPen border_color 1) painter in
        let painter := setBrush (QBrush color) painter in
        let painter :=
          draw (drawEllipse (Drawable.x self) (Drawable.y self) width height) painter in
        restore painter
    | Drawable.Text text font_size color =>
        let painter := save painter in
        let painter := setFont (mkQFont (Some font_size)) painter in
        let painter := setPen (pen_of_color color) painter in
        let painter :=
          draw (drawText (Drawable.x self) (Drawable.y self + inject_Z font_size) text)
               painter in
        restore painter
    | Drawable.WidgetWrapper width height =>
        let painter := save painter in
        let painter := setPen (QPen (mkQColor 100 100 100 255) 1) painter in
        let painter := setBrush (QBrush (mkQColor 50 50 50 100)) painter in
        let painter :=
          draw (drawRect (Drawable.x self) (Drawable.y self) width height) painter in
        restore painter
    end.

(** The drawing call a visible item makes. *)
Definition primitive_of (self : Drawable.t) : primitive :=
  match Drawable.kind self with
  | Drawable.Rectangle width height _ _ =>
      drawRect (Drawable.x self) (Drawable.y self) width height
  | Drawable.Ellipse width height _ _ =>
      drawEllipse (Drawable.x self) (Drawable.y self) width height
  | Drawable.Text text font_size _ =>
      drawText (Drawable.x self) (Drawable.y self + inject_Z font_size) text
  | Drawable.WidgetWrapper width height =>
      drawRect (Drawable.x self) (Drawable.y self) width height
  end.

(** *** view.py *)

Definition _apply_camera_transform (self : SceneView.t) (painter : QPainter) : QPainter :=
  let painter := resetTransform painter in
  let painter := scale (SceneView._zoom self) (SceneView._zoom self) painter in
  translate (- px (SceneView._position self)) (- py (SceneView._position self)) painter.

Definition _draw_background (self : SceneView.t) (painter : QPainter) : result QPainter :=
  let center_x := 0 in
  let center_y := 0 in
  let widget_width := SceneView.width self in
  let widget_height := SceneView.height self in
  let original_transform := world (current painter) in
  let painter := resetTransform painter in
  (radius <- truediv (inject_Z (Z.max widget_width widget_height) / 2) (SceneView._zoom self) ;;
   let gradient :=
     mkQRadialGradient center_x center_y radius
       [(0, mkQColor 30 30 30 255); (1, mkQColor 15 15 15 255)] in
   let painter := save painter in
   let painter := resetTransform painter in
   half_w <- truediv (inject_Z widget_width) (2 * SceneView._zoom self) ;;
   half_h <- truediv (inject_Z widget_height) (2 * SceneView._zoom self) ;;
   full_w <- truediv (inject_Z widget_width) (SceneView._zoom self) ;;
   full_h <- truediv (inject_Z widget_height) (SceneView._zoom self) ;;
   let painter :=
     draw (fillRect (int (px (SceneView._position self) - half_w))
                    (int (py (SceneView._position self) - half_h))
                    (int full_w) (int full_h) gradient) painter in
   let painter := restore painter in
   Ok (setTransform original_transform painter))%res.

Definition _draw_origin_lines (painter : QPainter) : QPainter :=
  let painter := setPen (pen_of_color (mkQColor 255 100 100 150)) painter in
  let painter := draw (drawLine 0 (-10000) 0 10000) painter in
  let painter := setPen (pen_of_color (mkQColor 100 255 100 150)) painter in
  let painter := draw (drawLine (-10000) 0 10000 0) painter in
  let painter := setPen (pen_of_color (mkQColor 255 255 255 200)) painter in
  draw (drawPoint 0 0) painter.

Definition _draw_scope (self : SceneView.t) (painter : QPainter) : QPainter :=
  let painter := save painter in
  let painter := resetTransform painter in
  let x := int (px (SceneView._last_mouse_pos self)) in
  let y := int (py (SceneView._last_mouse_pos self)) in
  let painter := setPen (pen_of_color (mkQColor 255 255 255 200)) painter in
  let painter := draw (drawLine 0 y (SceneView.width self) y) painter in
  let painter := draw (drawLine x 0 x (SceneView.height self)) painter in
  restore painter.

(** The loop of [paintEvent] over the items: each visible one is painted
    between a [save] and a [restore]. *)
Definition paint_items (items : list Drawable.t) (painter : QPainter) : QPainter :=
  fold_left
    (fun painter item =>
       if Drawable.visible item then restore (paint item (save painter)) else painter)
    items painter.

Definition paintEvent (self : SceneView.t) : result QPainter :=
  let painter := begin in
  let painter := setRenderHint_Antialiasing painter in
  let painter := _apply_camera_transform self painter in
  (painter <- _draw_background self painter ;;
   let painter :=
     paint_items (SceneManager.get_items (SceneView._scene_manager self)) painter in
   let painter := _draw_origin_lines painter in
   Ok (if SceneView._scope_visible self then _draw_scope self painter else painter))%res.

(** The transform the items are painted under. *)
Definition camera_transform (self : SceneView.t) : QTransform :=
  mkQTransform (1 * SceneView._zoom self) (1 * SceneView._zoom self)
               (0 + 1 * SceneView._zoom self * - px (SceneView._position self))
               (0 + 1 * SceneView._zoom self * - py (SceneView._position self)).

End Painting.

(** ** actions/manager.py *)

Module ActionManager.

(** A [QAction(name, parent)] with the shortcut set on it and the callables
    connected to [triggered]; a callable is named by a number. *)
Record QAction : Type := mkQAction {
  text : string;
  shortcut : option string;
  triggered : list nat
}.

(** The dictionary [self._actions], in insertion order. *)
Record t : Type := mk { _actions : list (string * QAction) }.

Definition init : t := mk [].





(** An entry of the configuration: whether ["separator"] is set, and the
    values under ["id"], ["name"], ["shortcut"] and ["function"] when present. *)
Record item : Type := mkItem {
  separator : bool;
  id : option string;
  name : option string;
  item_shortcut : option string;
  function : option nat
}.








End ActionManager.

(** ** workspace.py *)

Module SceneWorkspace.

(** A tab: its label and the view inside its scroll area. *)
Record tab : Type := mkTab { label : string; scene_view : SceneView.t }.

Record t : Type := mk { tabs : list tab; _update_slot : bool }.

(** [f"Tab {n}"] *)
Definition tab_text (n : nat) : string :=
  ("Tab " ++ DecimalString.NilZero.string_of_uint (Nat.to_uint n))%string.

(** [new_tab]: a view on a registry of its own, centred on the origin, in a tab
    added after the others. [w] and [h] are the size Qt gives the view. *)
Definition new_tab (w h : Z) (self : t) : t * SceneView.t :=
  let scene_manager := SceneManager.init in
  let scene_view := SceneView.init scene_manager w h in
  let tab_number := (List.length (tabs self) + 1)%nat in
  let scene_view := SceneView.final (SceneView.center_on_position 0 0 scene_view) in
  (mk (tabs self ++ [mkTab (tab_text tab_number) scene_view]) (_update_slot self),
   scene_view).

(** [QTabWidget.removeTab]: nothing happens for an index that is not a tab. *)
Fixpoint remove_nth (n : nat) (l : list tab) : list tab :=
  match n, l with
  | _, [] => []
  | O, _ :: rest => rest
  | S n, x :: rest => x :: remove_nth n rest
  end.

Definition removeTab (index : Z) (self : t) : t :=
  if (index <? 0)%Z then self
  else mk (remove_nth (Z.to_nat index) (tabs self)) (_update_slot self).

(** [close_tab], with what it prints. *)
Definition close_tab (index : Z) (self : t) : t * list string :=
  if (1 <? List.length (tabs self))%nat
  then (removeTab index self, [])
  else (self, ["Cannot close the last tab."%string]).

(** [SceneWorkspace(update_slot)] *)
Definition init (update_slot : bool) (w h : Z) : t :=
  fst (new_tab w h (mk [] update_slot)).

Inductive op : Type :=
| NewTab (w h : Z)
| CloseTab (index : Z).

Definition apply (self : t) (o : op) : t :=
  match o with
  | NewTab w h => fst (new_tab w h self)
  | CloseTab index => fst (close_tab index self)
  end.

End SceneWorkspace.

(** ** Conditions on the widget *)

(** The zoom is within its bounds. *)
Definition zoom_in_range (v : SceneView.t) : Prop :=
  SceneView._min_zoom <= SceneView._zoom v <= SceneView._max_zoom.


(** What no handler touches: the registry, the size Qt gives the widget and
    the visibility of the crosshair. *)
Definition same_frame (v v' : SceneView.t) : Prop :=
  SceneView._scene_manager v' = SceneView._scene_manager v
  /\ SceneView.width v' = SceneView.width v
  /\ SceneView.height v' = SceneView.height v
  /\ SceneView._scope_visible v' = SceneView._scope_visible v.

(** A computation keeps [I] however it ends; it returns and keeps [I]. *)
Definition preserves {A : Type} (I : SceneView.t -> Prop) (m : SceneView.M A) : Prop :=
  forall v, I v -> I (SceneView.final (m v)).
Definition safe {A : Type} (I : SceneView.t -> Prop) (m : SceneView.M A) : Prop :=
  forall v, I v -> SceneView.returned (m v) = true /\ I (SceneView.final (m v)).

(** A widget within bounds that has the frame of [v0]. *)
Definition within (v0 v : SceneView.t) : Prop :=
  zoom_in_range v /\ same_frame v0 v.

(** A Hoare triple for the handlers: from a widget satisfying [P] the
    computation either returns [a] on a widget satisfying [Q a], or raises [e]
    on a widget satisfying [E e]. *)
Definition hoare {A : Type} (P : SceneView.t -> Prop) (m : SceneView.M A)
    (Q : A -> SceneView.t -> Prop) (E : exn -> SceneView.t -> Prop) : Prop :=
  forall v, P v ->
    match m v with
    | SceneView.Returned a v' _ => Q a v'
    | SceneView.Raised e v' _ => E e v'
    end.

(** Some item that hit testing visits is an ellipse of zero width or height. *)
Definition has_flat_ellipse (m : SceneManager.t) : Prop :=
  exists item, In item (SceneManager._items m)
               /\ Drawable.interactive item = true
               /\ Drawable.degenerate item = true.

(** Why the handler of [ev] can raise [e] on the widget [v]. *)
Definition raise_cause (ev : SceneView.event) (e : exn) (v : SceneView.t) : Prop :=
  (e = ZeroDivisionError /\ has_flat_ellipse (SceneView._scene_manager v))
  \/ (e = NameError "QApplication"
      /\ SceneView._is_panning v = true
      /\ exists alt, ev = SceneView.MouseRelease SceneView.LeftButton alt).

(** A failure inside the handler of [ev], on a widget still within bounds. *)
Definition failure (v0 : SceneView.t) (ev : SceneView.event) (e : exn) (v : SceneView.t)
  : Prop :=
  within v0 v /\ raise_cause ev e v.

(** The colour [_emit_status] reports for the result of a hit test. *)
Definition reported_color (r : option Drawable.t) : QColor :=
  match r with
  | Some item =>
      match Drawable.color item with
      | Some c => c
      | None => mkQColor 100 100 100 255
      end
  | None => mkQColor 100 100 100 255
  end.


(** The step of the arrow keys. *)
Definition arrow_step (v : SceneView.t) : Q :=
  if Qlt_bool (SceneView._zoom v) 1 then 20 / SceneView._zoom v else 20 * SceneView._zoom v.

(** ** Sample inputs *)


(** The ellipse [Ellipse(0, 0, 0, 50)]: no width, which the data model allows. *)
Definition ellipse_0_50 : Drawable.t :=
  Drawable.mk 0 0 0 0 true false
    (Drawable.Ellipse 0 50 (mkQColor 200 100 150 150) (mkQColor 200 200 200 255)).

(** A camera away from the origin, zoomed in, in a 400 x 300 viewport. *)
Definition sample_view : SceneView.t :=
  SceneView.set_zoom 2.5
    (SceneView.set_position (mkQPointF 30 (-12)) (SceneView.init SceneManager.init 400 300)).

(** [Rectangle(0, 0, 10, 10, z_index=z)] as the object [oid]. *)
Definition rect (oid : nat) (z : Z) : Drawable.t :=
  Drawable.mk oid 0 0 z true false
    (Drawable.Rectangle 10 10 (mkQColor 100 150 200 150) (mkQColor 200 200 200 255)).

(** The scenario of the specification: [Rectangle(100, 100, 200, 100, z_index=0)]
    and [Ellipse(350, 150, 150, 150, z_index=1)], added in that order, and a
    second rectangle over the first one on the same layer. *)
Definition scenario_rectangle : Drawable.t :=
  Drawable.mk 1 100 100 0 true false
    (Drawable.Rectangle 200 100 (mkQColor 100 150 200 150) (mkQColor 200 200 200 255)).
Definition scenario_ellipse : Drawable.t :=
  Drawable.mk 2 350 150 1 true false
    (Drawable.Ellipse 150 150 (mkQColor 200 100 150 150) (mkQColor 200 200 200 255)).
Definition scenario_overlay : Drawable.t :=
  Drawable.mk 3 120 120 0 true false
    (Drawable.Rectangle 50 50 (mkQColor 100 150 200 150) (mkQColor 200 200 200 255)).
Definition scenario : list SceneManager.op :=
  [SceneManager.Add scenario_rectangle; SceneManager.Add scenario_ellipse;
   SceneManager.Add scenario_overlay].

(** A 400 x 300 widget on the scenario, its camera at (250, 150). *)
Definition scenario_view : SceneView.t :=
  SceneView.set_position (mkQPointF 250 150)
    (SceneView.init (SceneManager.run scenario) 400 300).

(** A registry whose only item is a locked ellipse of no width. *)
Definition locked_flat_registry : SceneManager.t :=
  SceneManager.mk
    [Drawable.mk 7 0 0 0 true true
       (Drawable.Ellipse 0 50 (mkQColor 200 100 150 150) (mkQColor 200 200 200 255))]
    true.

(** * Properties *)

(** ** Arithmetic of the runtime *)

Lemma truediv_ok (a b : Q) : ~ b == 0 -> truediv a b = Ok (a / b).
Proof.
  intros Hb. unfold truediv.
  destruct (Qeq_bool b 0) eqn:E; [|reflexivity].
  apply Qeq_bool_eq in E. contradiction.
Qed.

Lemma truediv_zero (a b : Q) : b == 0 -> truediv a b = Err ZeroDivisionError.
Proof.
  intros Hb. unfold truediv. now rewrite (Qeq_eq_bool _ _ Hb).
Qed.

Lemma Qlt_bool_true (a b : Q) : Qlt_bool a b = true <-> a < b.
Proof.
  unfold Qlt_bool. rewrite negb_true_iff. split; intros H.
  - apply Qnot_le_lt. intros Hle. apply Qle_bool_iff in Hle. congruence.
  - destruct (Qle_bool b a) eqn:E; [|reflexivity].
    apply Qle_bool_iff in E. exfalso. now apply (Qlt_not_le a b).
Qed.

Lemma Qlt_bool_false (a b : Q) : Qlt_bool a b = false <-> b <= a.
Proof.
  unfold Qlt_bool. rewrite negb_false_iff. apply Qle_bool_iff.
Qed.

Lemma py_min_le (a b : Q) : py_min a b <= a /\ py_min a b <= b.
Proof.
  unfold py_min. destruct (Qlt_bool b a) eqn:E.
  - apply Qlt_bool_true in E. split; [now apply Qlt_le_weak | apply Qle_refl].
  - apply Qlt_bool_false in E. split; [apply Qle_refl | exact E].
Qed.

Lemma py_max_ge (a b : Q) : a <= py_max a b /\ b <= py_max a b.
Proof.
  unfold py_max. destruct (Qlt_bool a b) eqn:E.
  - apply Qlt_bool_true in E. split; [now apply Qlt_le_weak | apply Qle_refl].
  - apply Qlt_bool_false in E. split; [apply Qle_refl | exact E].
Qed.

Lemma py_max_cases (a b : Q) : py_max a b = a \/ py_max a b = b.
Proof. unfold py_max. destruct (Qlt_bool a b); auto. Qed.

(** The clamp of [_zoom_to_cursor] and [set_zoom_level] lands in the range. *)
Lemma clamp_in_range (lo hi z : Q) :
  lo <= hi -> lo <= py_max lo (py_min hi z) <= hi.
Proof.
  intros Hlh. split; [apply py_max_ge|].
  destruct (py_max_cases lo (py_min hi z)) as [-> | ->];
    [exact Hlh | apply py_min_le].
Qed.

Lemma zoom_range_nonzero (z : Q) :
  SceneView._min_zoom <= z -> ~ z == 0.
Proof.
  unfold SceneView._min_zoom. intros H E. rewrite E in H.
  revert H. unfold Qle. simpl. lia.
Qed.

Lemma min_le_max_zoom : SceneView._min_zoom <= SceneView._max_zoom.
Proof. unfold SceneView._min_zoom, SceneView._max_zoom, Qle. simpl. lia. Qed.

(** ** Containment tests of the drawables *)

Lemma Qpower_2_nonzero (a : Q) : ~ a == 0 -> ~ a ^ 2 == 0.
Proof.
  intros Ha H. apply Ha. simpl in H.
  destruct (Qmult_integral _ _ H); assumption.
Qed.

Lemma half_nonzero (w : Q) : ~ w == 0 -> ~ w / 2 == 0.
Proof.
  intros Hw H. apply Hw.
  setoid_replace w with (w / 2 * 2) by (field; discriminate).
  rewrite H. reflexivity.
Qed.

(** On an ellipse of non-zero width and height [contains_point] is the
    normalized quadratic form about the centre of the bounding box. *)
Lemma contains_point_ellipse (self : Drawable.t) (w h : Q) (c bc : QColor) (P : QPointF) :
  Drawable.kind self = Drawable.Ellipse w h c bc ->
  ~ w == 0 -> ~ h == 0 ->
  Drawable.contains_point self P =
    Ok (Qle_bool (((px P - (Drawable.x self + w / 2)) / (w / 2)) ^ 2
                  + ((py P - (Drawable.y self + h / 2)) / (h / 2)) ^ 2) 1).
Proof.
  intros Hk Hw Hh. unfold Drawable.contains_point. rewrite Hk.
  rewrite (truediv_ok _ _ (Qpower_2_nonzero _ (half_nonzero _ Hw))).
  cbn [result_bind].
  rewrite (truediv_ok _ _ (Qpower_2_nonzero _ (half_nonzero _ Hh))).
  cbn [result_bind]. f_equal.
  apply Qleb_comp; [|reflexivity].
  simpl. field. split; assumption.
Qed.

(** An ellipse of zero width or zero height makes [contains_point] raise,
    whatever the point. *)
Lemma contains_point_degenerate (self : Drawable.t) (P : QPointF) :
  Drawable.degenerate self = true ->
  Drawable.contains_point self P = Err ZeroDivisionError.
Proof.
  unfold Drawable.degenerate, Drawable.contains_point.
  destruct (Drawable.kind self) as [| w h c bc | |]; try discriminate.
  intros Hd.
  destruct (Qeq_bool w 0) eqn:Ew.
  - apply Qeq_bool_eq in Ew.
    rewrite truediv_zero; [reflexivity|]. rewrite Ew. reflexivity.
  - apply Qeq_bool_neq in Ew. simpl in Hd. apply Qeq_bool_eq in Hd.
    rewrite (truediv_ok _ _ (Qpower_2_nonzero _ (half_nonzero _ Ew))).
    cbn [result_bind].
    rewrite truediv_zero; [reflexivity|]. rewrite Hd. reflexivity.
Qed.

(** Everywhere else [contains_point] returns a boolean. *)
Lemma contains_point_total (self : Drawable.t) (P : QPointF) :
  Drawable.degenerate self = false ->
  exists b : bool, Drawable.contains_point self P = Ok b.
Proof.
  unfold Drawable.degenerate. intros Hd.
  destruct (Drawable.kind self) as [w h c bc | w h c bc | s f c | w h] eqn:Hk;
    try (unfold Drawable.contains_point; rewrite Hk; eexists; reflexivity).
  apply orb_false_iff in Hd. destruct Hd as [Hw Hh].
  apply Qeq_bool_neq in Hw. apply Qeq_bool_neq in Hh.
  rewrite (contains_point_ellipse self w h c bc P Hk Hw Hh). eexists; reflexivity.
Qed.

Lemma contains_point_raises_iff (self : Drawable.t) (P : QPointF) :
  (exists e, Drawable.contains_point self P = Err e) <-> Drawable.degenerate self = true.
Proof.
  split.
  - intros [e He]. destruct (Drawable.degenerate self) eqn:Hd; [reflexivity|].
    destruct (contains_point_total self P Hd) as [b Hb]. congruence.
  - intros Hd. eexists. now apply contains_point_degenerate.
Qed.



(** C7 fails on the code: an ellipse of width 0 satisfies the invariant
    [width >= 0 /\ height >= 0], and [contains_point] raises
    [ZeroDivisionError] on it instead of returning a boolean. *)
Theorem contains_point_raises_on_flat_ellipse :
  Drawable.size_nonneg ellipse_0_50
  /\ Drawable.contains_point ellipse_0_50 (mkQPointF 0 0) = Err ZeroDivisionError
  /\ forall P : QPointF, Drawable.contains_point ellipse_0_50 P = Err ZeroDivisionError.
Proof.
  split; [|split].
  - simpl. split; unfold Qle; simpl; lia.
  - reflexivity.
  - intros P. now apply contains_point_degenerate.
Qed.

(** ** The coordinate transforms *)

Section Transforms.

Import SceneView.

Variable v : SceneView.t.

Lemma screen_to_scene_with_zoom_ok (p : QPointF) (z : Q) :
  ~ z == 0 ->
  _screen_to_scene_with_zoom v p z =
    Ok (mkQPointF (px (_position v) + (px p - widget_center_x v) / z)
                  (py (_position v) + (py p - widget_center_y v) / z)).
Proof.
  intros Hz. unfold _screen_to_scene_with_zoom.
  rewrite !(truediv_ok _ _ Hz). reflexivity.
Qed.

Lemma screen_to_scene_with_zoom_zero (p : QPointF) (z : Q) :
  z == 0 -> _screen_to_scene_with_zoom v p z = Err ZeroDivisionError.
Proof.
  intros Hz. unfold _screen_to_scene_with_zoom.
  rewrite (truediv_zero _ _ Hz). reflexivity.
Qed.

Hypothesis zoom_in_range : _min_zoom <= _zoom v <= _max_zoom.

Lemma zoom_nonzero : ~ _zoom v == 0.
Proof. apply zoom_range_nonzero, zoom_in_range. Qed.

Lemma screen_to_scene_ok (p : QPointF) :
  _screen_to_scene v p =
    Ok (mkQPointF (px (_position v) + (px p - widget_center_x v) / _zoom v)
                  (py (_position v) + (py p - widget_center_y v) / _zoom v)).
Proof. apply screen_to_scene_with_zoom_ok, zoom_nonzero. Qed.

End Transforms.



(** ** Zoom to cursor *)

Lemma zoom_to_cursor_returns (v : SceneView.t) (S : QPointF) (factor : Q) :
  SceneView._min_zoom <= SceneView._zoom v <= SceneView._max_zoom ->
  let new_zoom :=
    py_max SceneView._min_zoom (py_min SceneView._max_zoom (SceneView._zoom v * factor)) in
  SceneView._zoom_to_cursor S factor v =
    SceneView.Returned tt
      (SceneView.set_position
         (mkQPointF
            (px (SceneView._position v)
             - (px (SceneView._position v) + (px S - SceneView.widget_center_x v) / new_zoom
                - (px (SceneView._position v) + (px S - SceneView.widget_center_x v) / SceneView._zoom v)))
            (py (SceneView._position v)
             - (py (SceneView._position v) + (py S - SceneView.widget_center_y v) / new_zoom
                - (py (SceneView._position v) + (py S - SceneView.widget_center_y v) / SceneView._zoom v))))
         (SceneView.set_zoom new_zoom v))
      [].
Proof.
  intros Hz new_zoom.
  assert (Hnew : ~ new_zoom == 0).
  { apply zoom_range_nonzero. apply (clamp_in_range _ _ _ min_le_max_zoom). }
  unfold SceneView._zoom_to_cursor, SceneView.bind, SceneView.get, SceneView.lift,
    SceneView.modify.
  rewrite (screen_to_scene_ok v Hz S). cbn beta iota.
  fold new_zoom.
  rewrite (screen_to_scene_with_zoom_ok (SceneView.set_zoom new_zoom v) S
             (SceneView._zoom (SceneView.set_zoom new_zoom v)) Hnew).
  reflexivity.
Qed.



(** ** Panning *)

Lemma emit_status_final (v : SceneView.t) :
  SceneView.final (SceneView._emit_status v) = v.
Proof.
  unfold SceneView._emit_status, SceneView.bind, SceneView.get, SceneView.lift,
    SceneView.emit.
  destruct (SceneView._screen_to_scene v (SceneView._last_mouse_pos v)); [|reflexivity].
  destruct (SceneView.sample_color _ _ _); reflexivity.
Qed.

(** What a pointer move leaves in the widget, whether or not the status
    emission at its end raised. *)
Lemma mouseMoveEvent_final (pos : QPointF) (v : SceneView.t) :
  ~ SceneView._zoom v == 0 ->
  SceneView.final (SceneView.mouseMoveEvent pos v) =
    let v' := SceneView.set_last_mouse_pos (mkQPointF (px pos) (py pos)) v in
    if SceneView._is_panning v
    then SceneView.set_position
           (mkQPointF
              (px (SceneView._camera_start_pos v)
               + - (px pos - px (SceneView._pan_start_pos v)) / SceneView._zoom v)
              (py (SceneView._camera_start_pos v)
               + - (py pos - py (SceneView._pan_start_pos v)) / SceneView._zoom v))
           v'
    else v'.
Proof.
  intros Hz. unfold SceneView.mouseMoveEvent, SceneView.bind, SceneView.get,
    SceneView.modify, SceneView.lift, SceneView.emit, SceneView.ret.
  cbn [SceneView._is_panning SceneView.set_last_mouse_pos SceneView._zoom
       SceneView._pan_start_pos SceneView._camera_start_pos px py].
  destruct (SceneView._is_panning v).
  - rewrite !(truediv_ok _ _ Hz). cbn beta iota.
    match goal with |- context [SceneView._emit_status ?w] =>
      pose proof (emit_status_final w) as Hf;
      destruct (SceneView._emit_status w) end; simpl in *; exact Hf.
  - cbn beta iota.
    match goal with |- context [SceneView._emit_status ?w] =>
      pose proof (emit_status_final w) as Hf;
      destruct (SceneView._emit_status w) end; simpl in *; exact Hf.
Qed.

(** A pan-initiating press returns and starts the pan. *)
Lemma mousePressEvent_starts_pan
    (v0 : SceneView.t) (button : SceneView.MouseButton) (alt : bool) (P0 : QPointF) :
  SceneView.is_button button SceneView.MiddleButton
  || (SceneView.is_button button SceneView.LeftButton && alt) = true ->
  exists v1,
    SceneView.mousePressEvent button P0 alt v0 = SceneView.Returned tt v1 [SceneView.accept]
    /\ SceneView.panning_from v0 P0 v1
    /\ SceneView._position v1 = SceneView._position v0.
Proof.
  intros Hpan. unfold SceneView.mousePressEvent. rewrite Hpan.
  eexists. split; [reflexivity|].
  unfold SceneView.panning_from. simpl. tauto.
Qed.





(** ** What the handlers send out *)

Lemma statuses_app (out1 out2 : list SceneView.effect) :
  SceneView.statuses (out1 ++ out2) = SceneView.statuses out1 ++ SceneView.statuses out2.
Proof. apply flat_map_app. Qed.

Lemma output_bind {A B : Type} (m : SceneView.M A) (k : A -> SceneView.M B) (v : SceneView.t) :
  SceneView.output (SceneView.bind m k v) =
    match m v with
    | SceneView.Returned a v1 out1 => out1 ++ SceneView.output (k a v1)
    | SceneView.Raised _ _ out1 => out1
    end.
Proof.
  unfold SceneView.bind. destruct (m v) as [a v1 out1|e v1 out1]; [|reflexivity].
  destruct (k a v1); reflexivity.
Qed.

Lemma returned_bind {A B : Type} (m : SceneView.M A) (k : A -> SceneView.M B) (v : SceneView.t) :
  SceneView.returned (SceneView.bind m k v) =
    match m v with
    | SceneView.Returned a v1 _ => SceneView.returned (k a v1)
    | SceneView.Raised _ _ _ => false
    end.
Proof.
  unfold SceneView.bind. destruct (m v) as [a v1 out1|e v1 out1]; [|reflexivity].
  destruct (k a v1); reflexivity.
Qed.

(** [_zoom_to_cursor] sends nothing out: no repaint request and no status. *)
Lemma zoom_to_cursor_output (S : QPointF) (factor : Q) (v : SceneView.t) :
  SceneView.output (SceneView._zoom_to_cursor S factor v) = [].
Proof.
  unfold SceneView._zoom_to_cursor, SceneView.bind, SceneView.get, SceneView.lift,
    SceneView.modify.
  destruct (SceneView._screen_to_scene v S); [|reflexivity]. cbn beta iota.
  destruct (SceneView._screen_to_scene_with_zoom _ S _); reflexivity.
Qed.

Lemma reset_zoom_output (v : SceneView.t) :
  SceneView.output (SceneView._reset_zoom v) = [].
Proof.
  unfold SceneView._reset_zoom. rewrite output_bind. cbn [SceneView.get app].
  rewrite output_bind. unfold SceneView.lift.
  destruct (truediv 1 (SceneView._zoom v)); [|reflexivity].
  cbn [app]. apply zoom_to_cursor_output.
Qed.

(** [_emit_status] sends one snapshot when it returns and none when it raises. *)
Lemma emit_status_output (v : SceneView.t) :
  match SceneView._emit_status v with
  | SceneView.Returned _ _ out => exists s, out = [SceneView.status_updated s]
  | SceneView.Raised _ _ out => out = []
  end.
Proof.
  unfold SceneView._emit_status, SceneView.bind, SceneView.get, SceneView.lift,
    SceneView.emit.
  destruct (SceneView._screen_to_scene v (SceneView._last_mouse_pos v)); [|reflexivity].
  destruct (SceneView.sample_color _ _ _); [|reflexivity].
  eexists. reflexivity.
Qed.

(** The sibling paths: a key press that returns has sent exactly one snapshot,
    the zoom keys included. *)
Lemma keyPressEvent_emits_one_status (key : SceneView.Key) (v : SceneView.t) :
  SceneView.returned (SceneView.keyPressEvent key v) = true ->
  List.length (SceneView.statuses (SceneView.output (SceneView.keyPressEvent key v))) = 1%nat.
Proof.
  unfold SceneView.keyPressEvent.
  rewrite returned_bind, output_bind. cbn [SceneView.get app].
  rewrite returned_bind, output_bind.
  set (step := if Qlt_bool (SceneView._zoom v) 1 then _ else _).
  assert (Hstep : SceneView.output (step v) = []).
  { subst step. destruct (Qlt_bool (SceneView._zoom v) 1); [|reflexivity].
    unfold SceneView.lift. destruct (truediv 20 (SceneView._zoom v)); reflexivity. }
  destruct (step v) as [s v1 out1|e v1 out1]; [|discriminate].
  simpl in Hstep. subst out1. cbn [app].
  rewrite returned_bind, output_bind.
  set (act := match key with SceneView.Key_Left => _ | _ => _ end).
  assert (Hact : SceneView.output (act v1) = []).
  { subst act. destruct key; try reflexivity;
      solve [apply zoom_to_cursor_output | apply reset_zoom_output]. }
  destruct (act v1) as [u v2 out2|e v2 out2]; [|discriminate].
  simpl in Hact. subst out2. cbn [app].
  rewrite returned_bind, output_bind.
  pose proof (emit_status_output v2) as Hst.
  destruct (SceneView._emit_status v2) as [u' v3 out3|e v3 out3]; [|discriminate].
  destruct Hst as [s' ->]. intros _. reflexivity.
Qed.

(** A pointer move that returns has sent exactly one snapshot. *)
Lemma mouseMoveEvent_emits_one_status (pos : QPointF) (v : SceneView.t) :
  SceneView.returned (SceneView.mouseMoveEvent pos v) = true ->
  List.length (SceneView.statuses (SceneView.output (SceneView.mouseMoveEvent pos v))) = 1%nat.
Proof.
  unfold SceneView.mouseMoveEvent.
  rewrite returned_bind, output_bind. cbn [SceneView.modify app].
  rewrite returned_bind, output_bind. cbn [SceneView.get app].
  rewrite returned_bind, output_bind.
  set (w := SceneView.set_last_mouse_pos _ v).
  set (act := if SceneView._is_panning w then _ else _).
  assert (Hact : SceneView.output (act w) = []).
  { subst act. destruct (SceneView._is_panning w); [|reflexivity].
    unfold SceneView.bind, SceneView.lift, SceneView.modify.
    destruct (truediv _ _); [|reflexivity].
    destruct (truediv _ _); reflexivity. }
  destruct (act w) as [u v1 out1|e v1 out1]; [|discriminate].
  simpl in Hact. subst out1. cbn [app].
  rewrite returned_bind, output_bind. cbn [SceneView.emit].
  rewrite returned_bind, output_bind.
  pose proof (emit_status_output v1) as Hst.
  destruct (SceneView._emit_status v1) as [u' v3 out3|e v3 out3]; [|discriminate].
  destruct Hst as [s' ->]. intros _. reflexivity.
Qed.

(** [set_zoom_level], the public setter, also sends one snapshot. *)
Lemma set_zoom_level_emits_one_status (level : Q) (v : SceneView.t) :
  SceneView.returned (SceneView.set_zoom_level level v) = true ->
  List.length (SceneView.statuses (SceneView.output (SceneView.set_zoom_level level v))) = 1%nat.
Proof.
  unfold SceneView.set_zoom_level.
  rewrite returned_bind, output_bind. cbn [SceneView.modify app].
  rewrite returned_bind, output_bind. cbn [SceneView.emit].
  set (w := SceneView.set_zoom _ v).
  pose proof (emit_status_output w) as Hst.
  destruct (SceneView._emit_status w) as [u' v3 out3|e v3 out3]; [|discriminate].
  destruct Hst as [s' ->]. intros _. reflexivity.
Qed.

(** C4 fails on the code: a wheel event never sends a status snapshot (nor a
    repaint request); on a fresh 400 x 300 widget a wheel-up at (300, 200)
    returns with the zoom changed from 1 to 1.25 and the camera moved, and the
    only thing sent out is the acceptance of the event. *)
Theorem wheelEvent_emits_no_status :
  (forall (v : SceneView.t) (pos : QPointF) (angle_delta_y : Z),
      SceneView.statuses (SceneView.output (SceneView.wheelEvent pos angle_delta_y v)) = [])
  /\ (let v0 := SceneView.init SceneManager.init 400 300 in
      exists v1,
        SceneView.wheelEvent (mkQPointF 300 200) 120 v0
          = SceneView.Returned tt v1 [SceneView.accept]
        /\ SceneView._zoom v0 == 1
        /\ SceneView._zoom v1 == 1.25
        /\ peq (SceneView._position v1) (mkQPointF 20 10)).
Proof.
  split.
  - intros v pos dy. unfold SceneView.wheelEvent.
    rewrite output_bind.
    set (z := if (dy >? 0)%Z then _ else _).
    assert (Hz : SceneView.output (z v) = [])
      by (subst z; destruct (dy >? 0)%Z; apply zoom_to_cursor_output).
    destruct (z v) as [u v1 out1|e v1 out1]; simpl in Hz; subst out1; reflexivity.
  - eexists. split; [vm_compute; reflexivity|]. vm_compute. intuition congruence.
Qed.

(** ** Ending a pan *)

(** Releasing the middle button always returns and ends the pan. *)
Lemma middle_release_ends_pan (alt : bool) (v : SceneView.t) :
  exists v',
    SceneView.mouseReleaseEvent SceneView.MiddleButton alt v
      = SceneView.Returned tt v' [SceneView.accept]
    /\ SceneView._is_panning v' = false.
Proof. eexists. split; reflexivity. Qed.

(** A release with no pan in progress returns and changes nothing. *)
Lemma release_when_idle (button : SceneView.MouseButton) (alt : bool) (v : SceneView.t) :
  SceneView._is_panning v = false ->
  exists v',
    SceneView.mouseReleaseEvent button alt v = SceneView.Returned tt v' [SceneView.accept]
    /\ SceneView._is_panning v' = false.
Proof.
  intros Hidle. unfold SceneView.mouseReleaseEvent, SceneView.release_ends_pan.
  destruct button; cbn [SceneView.is_button];
    unfold SceneView.bind, SceneView.get, SceneView.ret, SceneView.modify, SceneView.emit;
    rewrite ?Hidle; eexists; (split; [reflexivity|]); simpl; try assumption; reflexivity.
Qed.

(** Releasing the left button while a pan is in progress raises [NameError]:
    [QApplication] is imported inside [mousePressEvent] only, and is not a
    name of the module. The pan stays in progress. *)
Lemma left_release_while_panning (alt : bool) (v : SceneView.t) :
  SceneView._is_panning v = true ->
  SceneView.mouseReleaseEvent SceneView.LeftButton alt v
    = SceneView.Raised (NameError "QApplication") v [].
Proof.
  intros Hpan. unfold SceneView.mouseReleaseEvent, SceneView.release_ends_pan.
  cbn [SceneView.is_button].
  unfold SceneView.bind, SceneView.get, SceneView.ret, SceneView.modify, SceneView.emit.
  rewrite Hpan. reflexivity.
Qed.

(** C5 fails on the code: on a fresh widget, a left press with Alt held starts
    a pan, and the release of the left button (Alt still held) raises
    [NameError] and leaves the pan in progress. *)
Theorem left_release_after_alt_pan_raises :
  let v0 := SceneView.init SceneManager.init 400 300 in
  exists v1 v2 out,
    SceneView.mousePressEvent SceneView.LeftButton (mkQPointF 120 80) true v0
      = SceneView.Returned tt v1 [SceneView.accept]
    /\ SceneView._is_panning v1 = true
    /\ SceneView.mouseReleaseEvent SceneView.LeftButton true v1
         = SceneView.Raised (NameError "QApplication") v2 out
    /\ SceneView._is_panning v2 = true
    /\ SceneView.handle_all
         [SceneView.MousePress SceneView.LeftButton (mkQPointF 120 80) true;
          SceneView.MouseRelease SceneView.LeftButton true] v0
       = SceneView.Raised (NameError "QApplication") v2 [SceneView.accept].
Proof.
  do 3 eexists. split; [reflexivity|]. split; [reflexivity|].
  split; [reflexivity|]. split; reflexivity.
Qed.

(** ** The scene registry *)

Section Registry.

Import SceneManager.

(** *** The stable sort *)

Lemma insert_by_z_perm (item : Drawable.t) (l : list Drawable.t) :
  Permutation (insert_by_z item l) (item :: l).
Proof.
  induction l as [|other rest IH]; simpl; [reflexivity|].
  destruct (Drawable.z_index item <=? Drawable.z_index other)%Z; [reflexivity|].
  rewrite IH. apply perm_swap.
Qed.

Lemma insert_by_z_sorted (item : Drawable.t) (l : list Drawable.t) :
  StronglySorted Drawable.z_le l -> StronglySorted Drawable.z_le (insert_by_z item l).
Proof.
  induction 1 as [|other rest Hs IH Hall]; simpl.
  - repeat constructor.
  - destruct (Drawable.z_index item <=? Drawable.z_index other)%Z eqn:E.
    + apply Z.leb_le in E. constructor; [constructor; assumption|].
      constructor; [exact E|].
      eapply Forall_impl; [|exact Hall]. unfold Drawable.z_le in *. intros; lia.
    + apply Z.leb_gt in E. constructor; [exact IH|].
      rewrite (insert_by_z_perm item rest). constructor; [|exact Hall].
      unfold Drawable.z_le. lia.
Qed.

(** An item goes in front of the items of its own layer and keeps out of the
    other layers. *)
Lemma filter_insert_by_z (k : Z) (item : Drawable.t) (l : list Drawable.t) :
  filter (Drawable.has_z k) (insert_by_z item l) = filter (Drawable.has_z k) (item :: l).
Proof.
  induction l as [|other rest IH]; [reflexivity|].
  cbn [insert_by_z].
  destruct (Drawable.z_index item <=? Drawable.z_index other)%Z eqn:E; [reflexivity|].
  apply Z.leb_gt in E. cbn [filter] in *. rewrite IH.
  unfold Drawable.has_z.
  destruct (Drawable.z_index item =? k)%Z eqn:Ei;
    destruct (Drawable.z_index other =? k)%Z eqn:Eo; try reflexivity.
  apply Z.eqb_eq in Ei, Eo. lia.
Qed.

Lemma sorted_by_z_perm (l : list Drawable.t) : Permutation (sorted_by_z l) l.
Proof.
  induction l as [|item rest IH]; simpl; [reflexivity|].
  rewrite insert_by_z_perm. now constructor.
Qed.

Lemma sorted_by_z_sorted (l : list Drawable.t) : StronglySorted Drawable.z_le (sorted_by_z l).
Proof.
  induction l as [|item rest IH]; simpl; [constructor|].
  now apply insert_by_z_sorted.
Qed.

Lemma filter_sorted_by_z (k : Z) (l : list Drawable.t) :
  filter (Drawable.has_z k) (sorted_by_z l) = filter (Drawable.has_z k) l.
Proof.
  induction l as [|item rest IH]; [reflexivity|].
  cbn [sorted_by_z fold_right]. fold (sorted_by_z rest).
  rewrite filter_insert_by_z. cbn [filter]. now rewrite IH.
Qed.

(** Sorting a sorted list changes nothing. *)
Lemma sorted_by_z_id (l : list Drawable.t) :
  StronglySorted Drawable.z_le l -> sorted_by_z l = l.
Proof.
  induction 1 as [|item rest Hs IH Hall]; [reflexivity|].
  cbn [sorted_by_z fold_right]. fold (sorted_by_z rest). rewrite IH.
  destruct rest as [|other rest']; [reflexivity|].
  cbn [insert_by_z]. inversion Hall as [|? ? Hle _]; subst.
  unfold Drawable.z_le in Hle. apply Z.leb_le in Hle. now rewrite Hle.
Qed.

(** *** Removal *)

Lemma list_remove_incl (item other : Drawable.t) (l : list Drawable.t) :
  In other (list_remove item l) -> In other l.
Proof.
  induction l as [|h t IH]; simpl; [tauto|].
  destruct (Drawable.eq_dec h item); simpl; tauto.
Qed.

Lemma list_remove_absent (item : Drawable.t) (l : list Drawable.t) :
  ~ In item l -> list_remove item l = l.
Proof.
  induction l as [|h t IH]; simpl; [reflexivity|]. intros Hn.
  destruct (Drawable.eq_dec h item) as [->|_]; [tauto|].
  f_equal. apply IH. tauto.
Qed.

Lemma list_remove_sorted (item : Drawable.t) (l : list Drawable.t) :
  StronglySorted Drawable.z_le l -> StronglySorted Drawable.z_le (list_remove item l).
Proof.
  induction 1 as [|h t Hs IH Hall]; simpl; [constructor|].
  destruct (Drawable.eq_dec h item); [exact Hs|].
  constructor; [exact IH|].
  rewrite Forall_forall in *. intros o Ho. apply Hall. eapply list_remove_incl, Ho.
Qed.

Lemma list_remove_perm (item : Drawable.t) (l l' : list Drawable.t) :
  Permutation l l' -> Permutation (list_remove item l) (list_remove item l').
Proof.
  induction 1 as [|h t t' Hp IH|a b t|l1 l2 l3 H1 IH1 H2 IH2]; simpl.
  - constructor.
  - destruct (Drawable.eq_dec h item); [exact Hp | now constructor].
  - destruct (Drawable.eq_dec a item) as [Ea|Ea], (Drawable.eq_dec b item) as [Eb|Eb];
      subst; try reflexivity.
    apply perm_swap.
  - now transitivity (list_remove item l2).
Qed.

Lemma filter_list_remove (p : Drawable.t -> bool) (item : Drawable.t) (l : list Drawable.t) :
  filter p (list_remove item l) =
    if p item then list_remove item (filter p l) else filter p l.
Proof.
  induction l as [|h t IH]; simpl; [now destruct (p item)|].
  destruct (Drawable.eq_dec h item) as [->|Hne].
  - destruct (p item) eqn:Ep; [|reflexivity].
    simpl. destruct (Drawable.eq_dec item item); [reflexivity | congruence].
  - simpl. rewrite IH. destruct (p item), (p h); try reflexivity.
    simpl. destruct (Drawable.eq_dec h item); [contradiction | reflexivity].
Qed.

(** *** The invariant of the registry *)

Lemma remove_item_items (m : SceneManager.t) (item : Drawable.t) :
  _items (fst (remove_item m item)) = list_remove item (_items m).
Proof.
  unfold remove_item. destruct (in_dec Drawable.eq_dec item (_items m)); [reflexivity|].
  simpl. symmetry. now apply list_remove_absent.
Qed.

Lemma registry_inv_step (m : SceneManager.t) (log : list Drawable.t) (o : op) :
  registry_inv (_items m) log ->
  registry_inv (_items (SceneManager.apply m o)) (log_apply log o).
Proof.
  intros (Hs & Hp & Hf). destruct o as [item|item|]; cbn [SceneManager.apply log_apply].
  - cbn [add_item fst _items]. split; [apply sorted_by_z_sorted|]. split.
    + rewrite sorted_by_z_perm. now apply Permutation_app_tail.
    + intros k. rewrite filter_sorted_by_z, !filter_app. now rewrite Hf.
  - rewrite remove_item_items. split; [now apply list_remove_sorted|]. split.
    + now apply list_remove_perm.
    + intros k. rewrite !filter_list_remove. now rewrite Hf.
  - cbn [clear_items fst _items]. split; [constructor|]. split; [constructor|reflexivity].
Qed.

Lemma registry_inv_fold (ops : list op) :
  forall (m : SceneManager.t) (log : list Drawable.t),
    registry_inv (_items m) log ->
    registry_inv (_items (fold_left SceneManager.apply ops m)) (fold_left log_apply ops log).
Proof.
  induction ops as [|o ops IH]; intros m log Hinv; [exact Hinv|].
  simpl. apply IH. now apply registry_inv_step.
Qed.

Lemma registry_inv_run (ops : list op) :
  registry_inv (_items (run ops)) (insertion_log ops).
Proof.
  apply registry_inv_fold. split; [constructor|]. split; [constructor|reflexivity].
Qed.

(** On a registry built by its own methods [get_items] is the stored list. *)
Lemma get_items_run (ops : list op) : get_items (run ops) = _items (run ops).
Proof. apply sorted_by_z_id, registry_inv_run. Qed.

End Registry.

(** C8: after any sequence of [add_item], [remove_item] and [clear_items],
    [get_items] is sorted by ascending z-index, holds exactly the inserted
    items that were not removed, and lists the items of every z-index in the
    order of their insertion; items added with z-indices 3, 1, 2 come back in
    the order 1, 2, 3, and two items of equal z-index in the order added. *)
Theorem get_items_sorted_and_stable (ops : list SceneManager.op) :
  (let items := SceneManager.get_items (SceneManager.run ops) in
   let log := SceneManager.insertion_log ops in
   StronglySorted Drawable.z_le items
   /\ Permutation items log
   /\ forall k, filter (Drawable.has_z k) items = filter (Drawable.has_z k) log)
  /\ SceneManager.get_items
       (SceneManager.run
          [SceneManager.Add (rect 0 3); SceneManager.Add (rect 1 1); SceneManager.Add (rect 2 2)])
     = [rect 1 1; rect 2 2; rect 0 3]
  /\ SceneManager.get_items
       (SceneManager.run
          [SceneManager.Add (rect 0 5); SceneManager.Add (rect 1 4); SceneManager.Add (rect 2 5)])
     = [rect 1 4; rect 0 5; rect 2 5].
Proof.
  split; [|split; reflexivity].
  cbv zeta. rewrite get_items_run. apply registry_inv_run.
Qed.

(** ** Hit testing *)

Section HitTesting.

Variable P : QPointF.







End HitTesting.

(** A locked or invisible item is never among the items of a region. *)
Lemma get_items_in_rect_interactive
    (m : SceneManager.t) (x y width height : Q) (item : Drawable.t) :
  In item (SceneManager.get_items_in_rect m x y width height) ->
  In item (SceneManager._items m)
  /\ Drawable.visible item = true
  /\ Drawable.locked item = false.
Proof.
  unfold SceneManager.get_items_in_rect. intros Hin.
  apply filter_In in Hin. destruct Hin as [Hin Hp].
  apply andb_true_iff in Hp. destruct Hp as [Hi _].
  apply andb_true_iff in Hi. destruct Hi as [Hv Hl].
  apply negb_true_iff in Hl. auto.
Qed.



(** The scenario of the specification, with the overlay on the rectangle's
    layer: the later-inserted overlay wins the tie at (150, 150), the ellipse
    is found at (400, 200) and nothing at (0, 0). *)
Example scenario_queries :
  SceneManager.get_item_at_position (SceneManager.run scenario) (mkQPointF 150 150)
    = Ok (Some scenario_overlay)
  /\ SceneManager.get_item_at_position (SceneManager.run scenario) (mkQPointF 250 150)
     = Ok (Some scenario_rectangle)
  /\ SceneManager.get_item_at_position (SceneManager.run scenario) (mkQPointF 400 200)
     = Ok (Some scenario_ellipse)
  /\ SceneManager.get_item_at_position (SceneManager.run scenario) (mkQPointF 0 0)
     = Ok None.
Proof. repeat split; reflexivity. Qed.

(** ** Click dispatch *)

(** The loop of [mousePressEvent] is the loop of [get_item_at_position]
    followed by the call of [on_clicked]. *)
Lemma click_items_spec (l : list Drawable.t) (scene_pos : QPointF) (v : SceneView.t) :
  SceneView.click_items l scene_pos v =
    match SceneManager.first_containing l scene_pos with
    | Ok (Some item) => SceneView.Returned tt v [SceneView.on_clicked item scene_pos]
    | Ok None => SceneView.Returned tt v []
    | Err e => SceneView.Raised e v []
    end.
Proof.
  induction l as [|item rest IH]; [reflexivity|].
  cbn [SceneView.click_items SceneManager.first_containing].
  destruct (Drawable.visible item && negb (Drawable.locked item)); [|exact IH].
  unfold SceneView.bind, SceneView.lift.
  destruct (Drawable.contains_point item scene_pos) as [[|]|e]; cbn [result_bind].
  - reflexivity.
  - rewrite IH. destruct (SceneManager.first_containing rest scene_pos) as [[top|]|e];
      reflexivity.
  - reflexivity.
Qed.

(** A press records the cursor position and sends no status snapshot either. *)
Lemma mousePressEvent_emits_no_status
    (button : SceneView.MouseButton) (pos : QPointF) (alt : bool) (v : SceneView.t) :
  SceneView.statuses (SceneView.output (SceneView.mousePressEvent button pos alt v)) = [].
Proof.
  unfold SceneView.mousePressEvent.
  destruct (SceneView.is_button button SceneView.MiddleButton
            || (SceneView.is_button button SceneView.LeftButton && alt)).
  - reflexivity.
  - rewrite output_bind.
    set (search := SceneView.bind SceneView.get _).
    assert (Hs : SceneView.statuses (SceneView.output (search v)) = []).
    { subst search. rewrite output_bind. cbn [SceneView.get app].
      rewrite output_bind. unfold SceneView.lift.
      destruct (SceneView._screen_to_scene v _) as [sp|e]; [|reflexivity].
      cbn [app]. rewrite click_items_spec.
      destruct (SceneManager.first_containing _ _) as [[top|]|e]; reflexivity. }
    destruct (search v) as [u v1 out1|e v1 out1]; cbn [SceneView.output] in Hs.
    + rewrite statuses_app, Hs. reflexivity.
    + exact Hs.
Qed.

(** C9: on a widget whose registry was built by [add_item], [remove_item] and
    [clear_items] and whose zoom is in range, a press that does not start a pan
    converts the screen point to the scene, and calls [on_clicked] on exactly
    the item [get_item_at_position] returns for that scene point: one call
    with that point when it returns an item, none when it returns none; when
    the query raises, so does the handler, with no call made. *)
Theorem click_dispatch_matches_topmost
    (ops : list SceneManager.op) (v : SceneView.t)
    (button : SceneView.MouseButton) (alt : bool) (S : QPointF) :
  SceneView._scene_manager v = SceneManager.run ops ->
  SceneView._min_zoom <= SceneView._zoom v <= SceneView._max_zoom ->
  SceneView.is_button button SceneView.MiddleButton
  || (SceneView.is_button button SceneView.LeftButton && alt) = false ->
  exists scene_pos,
    SceneView._screen_to_scene v S = Ok scene_pos
    /\ match SceneManager.get_item_at_position (SceneView._scene_manager v) scene_pos with
       | Ok (Some item) =>
           SceneView.mousePressEvent button S alt v =
             SceneView.Returned tt
               (SceneView.set_last_mouse_pos (mkQPointF (px S) (py S)) v)
               [SceneView.on_clicked item scene_pos; SceneView.accept]
       | Ok None =>
           SceneView.mousePressEvent button S alt v =
             SceneView.Returned tt
               (SceneView.set_last_mouse_pos (mkQPointF (px S) (py S)) v)
               [SceneView.accept]
       | Err e =>
           SceneView.mousePressEvent button S alt v = SceneView.Raised e v []
       end
    /\ SceneView.clicked (SceneView.output (SceneView.mousePressEvent button S alt v)) =
         match SceneManager.get_item_at_position (SceneView._scene_manager v) scene_pos with
         | Ok (Some item) => [item]
         | _ => []
         end.
Proof.
  intros Hsm Hz Hnopan.
  assert (Hpos : SceneView._screen_to_scene v (mkQPointF (px S) (py S))
                 = SceneView._screen_to_scene v S) by (destruct S; reflexivity).
  pose proof (screen_to_scene_ok v Hz S) as Hsp.
  eexists. split; [exact Hsp|].
  assert (Hrun : SceneView.mousePressEvent button S alt v =
    match SceneManager.get_item_at_position (SceneView._scene_manager v)
            (mkQPointF
               (px (SceneView._position v)
                + (px S - SceneView.widget_center_x v) / SceneView._zoom v)
               (py (SceneView._position v)
                + (py S - SceneView.widget_center_y v) / SceneView._zoom v)) with
    | Ok (Some item) =>
        SceneView.Returned tt (SceneView.set_last_mouse_pos (mkQPointF (px S) (py S)) v)
          [SceneView.on_clicked item
             (mkQPointF
                (px (SceneView._position v)
                 + (px S - SceneView.widget_center_x v) / SceneView._zoom v)
                (py (SceneView._position v)
                 + (py S - SceneView.widget_center_y v) / SceneView._zoom v));
           SceneView.accept]
    | Ok None =>
        SceneView.Returned tt (SceneView.set_last_mouse_pos (mkQPointF (px S) (py S)) v)
          [SceneView.accept]
    | Err e => SceneView.Raised e v []
    end).
  { unfold SceneView.mousePressEvent. rewrite Hnopan.
    unfold SceneView.bind, SceneView.get, SceneView.lift, SceneView.modify, SceneView.emit.
    rewrite Hpos, Hsp. cbn beta iota. rewrite click_items_spec.
    unfold SceneManager.get_item_at_position.
    rewrite Hsm, get_items_run.
    destruct (SceneManager.first_containing _ _) as [[top|]|e]; reflexivity. }
  rewrite Hrun.
  destruct (SceneManager.get_item_at_position _ _) as [[top|]|e]; split; reflexivity.
Qed.

Lemma click_dispatch_matches_topmost_witness :
  exists scene_pos,
    SceneView._screen_to_scene scenario_view (mkQPointF 100 150) = Ok scene_pos
    /\ match SceneManager.get_item_at_position
               (SceneView._scene_manager scenario_view) scene_pos with
       | Ok (Some item) =>
           SceneView.mousePressEvent SceneView.LeftButton (mkQPointF 100 150) false
             scenario_view =
             SceneView.Returned tt
               (SceneView.set_last_mouse_pos (mkQPointF 100 150) scenario_view)
               [SceneView.on_clicked item scene_pos; SceneView.accept]
       | Ok None =>
           SceneView.mousePressEvent SceneView.LeftButton (mkQPointF 100 150) false
             scenario_view =
             SceneView.Returned tt
               (SceneView.set_last_mouse_pos (mkQPointF 100 150) scenario_view)
               [SceneView.accept]
       | Err e =>
           SceneView.mousePressEvent SceneView.LeftButton (mkQPointF 100 150) false
             scenario_view = SceneView.Raised e scenario_view []
       end
    /\ SceneView.clicked
         (SceneView.output
            (SceneView.mousePressEvent SceneView.LeftButton (mkQPointF 100 150) false
               scenario_view)) =
         match SceneManager.get_item_at_position
                 (SceneView._scene_manager scenario_view) scene_pos with
         | Ok (Some item) => [item]
         | _ => []
         end.
Proof.
  apply (click_dispatch_matches_topmost scenario scenario_view SceneView.LeftButton false
           (mkQPointF 100 150)).
  - reflexivity.
  - vm_compute. split; discriminate.
  - reflexivity.
Defined.

(** The same press on the scenario lands on the overlay. *)
Example scenario_click :
  SceneView.clicked
    (SceneView.output
       (SceneView.mousePressEvent SceneView.LeftButton (mkQPointF 100 150) false
          scenario_view))
  = [scenario_overlay].
Proof. reflexivity. Qed.

(** * Further properties *)

(** ** Shapes and their bounding boxes *)

Lemma Qle_bool_true (a b : Q) : Qle_bool a b = true <-> a <= b.
Proof. apply Qle_bool_iff. Qed.








(** ** More on the registry *)

(** X3: [remove_item] of an item that is not in the registry changes nothing
    and signals nothing; of an item that is, it signals both changes and takes
    out exactly one occurrence. *)
Theorem remove_item_absent_and_present (m : SceneManager.t) (item : Drawable.t) :
  (~ In item (SceneManager._items m) -> SceneManager.remove_item m item = (m, []))
  /\ (In item (SceneManager._items m) ->
      snd (SceneManager.remove_item m item)
        = [SceneManager.items_changed; SceneManager.scene_changed]
      /\ Permutation (item :: SceneManager._items (fst (SceneManager.remove_item m item)))
                     (SceneManager._items m)).
Proof.
  unfold SceneManager.remove_item.
  destruct (in_dec Drawable.eq_dec item (SceneManager._items m)) as [Hin|Hout].
  - split; [tauto|]. intros _. split; [reflexivity|]. cbn [fst SceneManager._items].
    revert Hin.
    induction (SceneManager._items m) as [|h t IH]; [contradiction|].
    intros Hin. cbn [SceneManager.list_remove].
    destruct (Drawable.eq_dec h item) as [->|Hne]; [reflexivity|].
    destruct Hin as [->|Hin]; [congruence|].
    rewrite perm_swap. constructor. now apply IH.
  - split; [reflexivity | tauto].
Qed.

(** A sorted list cut at a z-index. *)
Lemma sorted_cut (item : Drawable.t) (l : list Drawable.t) :
  StronglySorted Drawable.z_le l ->
  filter (fun o => (Drawable.z_index o <=? Drawable.z_index item)%Z) l
  ++ filter (fun o => negb (Drawable.z_index o <=? Drawable.z_index item)%Z) l = l.
Proof.
  induction 1 as [|h t Hs IH Hall]; [reflexivity|]. cbn [filter].
  destruct (Drawable.z_index h <=? Drawable.z_index item)%Z eqn:E; cbn [negb app].
  - now rewrite IH.
  - apply Z.leb_gt in E.
    assert (Hgt : forall o, In o t ->
                    (Drawable.z_index o <=? Drawable.z_index item)%Z = false).
    { intros o Ho. rewrite Forall_forall in Hall. specialize (Hall o Ho).
      unfold Drawable.z_le in Hall. apply Z.leb_gt. lia. }
    assert (H1 : filter (fun o => (Drawable.z_index o <=? Drawable.z_index item)%Z) t = []).
    { clear - Hgt. induction t as [|o t IHt]; [reflexivity|]. cbn [filter].
      rewrite (Hgt o (or_introl eq_refl)). apply IHt. intros; apply Hgt; now right. }
    assert (H2 : filter (fun o => negb (Drawable.z_index o <=? Drawable.z_index item)%Z) t = t).
    { clear - Hgt. induction t as [|o t IHt]; [reflexivity|]. cbn [filter].
      rewrite (Hgt o (or_introl eq_refl)). cbn [negb]. f_equal.
      apply IHt. intros; apply Hgt; now right. }
    now rewrite H1, H2.
Qed.

Lemma sorted_by_z_snoc (item : Drawable.t) (l : list Drawable.t) :
  StronglySorted Drawable.z_le l ->
  SceneManager.sorted_by_z (l ++ [item])
  = filter (fun o => (Drawable.z_index o <=? Drawable.z_index item)%Z) l
    ++ item :: filter (fun o => negb (Drawable.z_index o <=? Drawable.z_index item)%Z) l.
Proof.
  induction 1 as [|h t Hs IH Hall]; [reflexivity|].
  cbn [app SceneManager.sorted_by_z fold_right].
  fold (SceneManager.sorted_by_z (t ++ [item])). rewrite IH. cbn [filter].
  destruct (Drawable.z_index h <=? Drawable.z_index item)%Z eqn:E; cbn [negb app].
  - apply Z.leb_le in E.
    destruct (filter _ t) as [|o rest] eqn:Ef; cbn [app SceneManager.insert_by_z].
    + apply Z.leb_le in E. now rewrite E.
    + assert (Ho : In o t).
      { assert (Hin : In o (o :: rest)) by now left.
        rewrite <- Ef in Hin. now apply filter_In in Hin. }
      rewrite Forall_forall in Hall. specialize (Hall o Ho).
      unfold Drawable.z_le in Hall. apply Z.leb_le in Hall. now rewrite Hall.
  - pose proof (sorted_cut item (h :: t) (SSorted_cons h Hs Hall)) as Hcut.
    cbn [filter] in Hcut. rewrite E in Hcut. cbn [negb] in Hcut.
    assert (H1 : filter (fun o => (Drawable.z_index o <=? Drawable.z_index item)%Z) t = []).
    { destruct (filter (fun o => (Drawable.z_index o <=? Drawable.z_index item)%Z) t)
        as [|o rest] eqn:Ef; [reflexivity|]. exfalso.
      assert (Hin : In o (o :: rest)) by now left.
      rewrite <- Ef in Hin. apply filter_In in Hin. destruct Hin as [Ho Hle].
      rewrite Forall_forall in Hall. specialize (Hall o Ho).
      unfold Drawable.z_le in Hall. apply Z.leb_le in Hle. apply Z.leb_gt in E. lia. }
    rewrite H1 in *. cbn [app] in *. injection Hcut as Hcut. rewrite Hcut.
    cbn [SceneManager.insert_by_z].
    apply Z.leb_gt in E.
    assert (E' : (Drawable.z_index h <=? Drawable.z_index item)%Z = false)
      by (apply Z.leb_gt; lia).
    rewrite E'. f_equal.
    destruct t as [|o t']; [reflexivity|]. cbn [SceneManager.insert_by_z].
    inversion Hall as [|? ? Hle _]; subst. unfold Drawable.z_le in Hle.
    apply Z.leb_le in Hle. now rewrite Hle.
Qed.

(** X4: on a registry built by its methods, [add_item] puts the new item after
    every item whose z-index is not larger and before every item whose z-index
    is larger, and leaves the other items in their order. *)
Theorem add_item_position (ops : list SceneManager.op) (item : Drawable.t) :
  let items := SceneManager._items (SceneManager.run ops) in
  exists below above,
    items = below ++ above
    /\ SceneManager._items (fst (SceneManager.add_item (SceneManager.run ops) item))
       = below ++ item :: above
    /\ Forall (fun o => (Drawable.z_index o <= Drawable.z_index item)%Z) below
    /\ Forall (fun o => (Drawable.z_index item < Drawable.z_index o)%Z) above.
Proof.
  intros items. destruct (registry_inv_run ops) as (Hs & _ & _). fold items in Hs.
  exists (filter (fun o => (Drawable.z_index o <=? Drawable.z_index item)%Z) items),
         (filter (fun o => negb (Drawable.z_index o <=? Drawable.z_index item)%Z) items).
  split; [symmetry; now apply sorted_cut|].
  split; [cbn [SceneManager.add_item fst SceneManager._items]; now apply sorted_by_z_snoc|].
  split; apply Forall_forall; intros o Ho; apply filter_In in Ho; destruct Ho as [_ Ho].
  - now apply Z.leb_le.
  - apply negb_true_iff, Z.leb_gt in Ho. exact Ho.
Qed.

Lemma list_remove_middle (item : Drawable.t) (l1 l2 : list Drawable.t) :
  ~ In item l1 -> SceneManager.list_remove item (l1 ++ item :: l2) = l1 ++ l2.
Proof.
  induction l1 as [|h t IH]; intros Hn; cbn [app SceneManager.list_remove].
  - destruct (Drawable.eq_dec item item); [reflexivity | congruence].
  - destruct (Drawable.eq_dec h item) as [->|_]; [exfalso; apply Hn; now left|].
    f_equal. apply IH. intros Hin. apply Hn. now right.
Qed.

(** X5: on a registry built by its methods, adding an item that is not in it
    and removing it again gives back the stored list. *)
Theorem add_then_remove_item (ops : list SceneManager.op) (item : Drawable.t) :
  ~ In item (SceneManager._items (SceneManager.run ops)) ->
  SceneManager._items
    (fst (SceneManager.remove_item
            (fst (SceneManager.add_item (SceneManager.run ops) item)) item))
  = SceneManager._items (SceneManager.run ops).
Proof.
  intros Hn. rewrite remove_item_items.
  destruct (registry_inv_run ops) as (Hs & _ & _).
  cbn [SceneManager.add_item fst SceneManager._items].
  rewrite (sorted_by_z_snoc item _ Hs), list_remove_middle.
  - now apply sorted_cut.
  - intros Hin. apply Hn. apply filter_In in Hin. apply Hin.
Qed.

Lemma add_then_remove_item_witness :
  SceneManager._items
    (fst (SceneManager.remove_item
            (fst (SceneManager.add_item (SceneManager.run scenario) (rect 9 0))) (rect 9 0)))
  = SceneManager._items (SceneManager.run scenario).
Proof.
  apply (add_then_remove_item scenario (rect 9 0)).
  simpl. intros [H|[H|[H|[]]]]; discriminate H.
Defined.

(** X6: when no item of the registry is both visible and unlocked,
    [get_item_at_position] returns none at every point, whatever the shapes,
    flat ellipses included: no containment test is run. *)
Theorem get_item_at_position_nothing_interactive (m : SceneManager.t) (pos : QPointF) :
  (forall item, In item (SceneManager._items m) -> Drawable.interactive item = false) ->
  SceneManager.get_item_at_position m pos = Ok None.
Proof.
  unfold SceneManager.get_item_at_position. intros Hno.
  assert (H : forall item, In item (rev (SceneManager._items m)) ->
                           Drawable.interactive item = false)
    by (intros item Hin; apply Hno; now apply in_rev).
  clear Hno. induction (rev (SceneManager._items m)) as [|item rest IH]; [reflexivity|].
  cbn [SceneManager.first_containing]. fold (Drawable.interactive item).
  rewrite (H item (or_introl eq_refl)). apply IH. intros; apply H; now right.
Qed.

Lemma get_item_at_position_nothing_interactive_witness :
  SceneManager.get_item_at_position locked_flat_registry (mkQPointF 0 25) = Ok None.
Proof.
  apply (get_item_at_position_nothing_interactive locked_flat_registry (mkQPointF 0 25)).
  simpl. intros item [<-|[]]. reflexivity.
Defined.

Lemma filter_sorted (p : Drawable.t -> bool) (l : list Drawable.t) :
  StronglySorted Drawable.z_le l -> StronglySorted Drawable.z_le (filter p l).
Proof.
  induction 1 as [|h t Hs IH Hall]; [constructor|]. cbn [filter].
  destruct (p h); [|exact IH]. constructor; [exact IH|].
  rewrite Forall_forall in *. intros o Ho. apply Hall. now apply filter_In in Ho.
Qed.

(** X7: on a registry built by its methods, [get_items_in_rect] returns, in
    ascending z-order, exactly the visible unlocked items whose position lies
    in the closed rectangle; the size of an item plays no part. *)
Theorem get_items_in_rect_spec (ops : list SceneManager.op) (x y width height : Q) :
  let found := SceneManager.get_items_in_rect (SceneManager.run ops) x y width height in
  StronglySorted Drawable.z_le found
  /\ forall item,
       In item found <->
       (In item (SceneManager._items (SceneManager.run ops))
        /\ Drawable.visible item = true
        /\ Drawable.locked item = false
        /\ x <= Drawable.x item <= x + width
        /\ y <= Drawable.y item <= y + height).
Proof.
  intros found. subst found. unfold SceneManager.get_items_in_rect. split.
  - apply filter_sorted, registry_inv_run.
  - intros item. rewrite filter_In, !andb_true_iff, negb_true_iff, !Qle_bool_true. tauto.
Qed.

(** ** A program logic for the handlers *)

Section HoareRules.

Context {A B : Type}.
Variables (P : SceneView.t -> Prop) (E : exn -> SceneView.t -> Prop).

Lemma hoare_bind (m : SceneView.M A) (k : A -> SceneView.M B)
    (Q : A -> SceneView.t -> Prop) (R : B -> SceneView.t -> Prop) :
  hoare P m Q E -> (forall a, hoare (Q a) (k a) R E) -> hoare P (SceneView.bind m k) R E.
Proof.
  intros Hm Hk v Hv. specialize (Hm v Hv). unfold SceneView.bind.
  destruct (m v) as [a v1 out1|e v1 out1]; [|exact Hm].
  specialize (Hk a v1 Hm). destruct (k a v1); exact Hk.
Qed.

Lemma hoare_ret (a : A) (Q : A -> SceneView.t -> Prop) :
  (forall v, P v -> Q a v) -> hoare P (SceneView.ret a) Q E.
Proof. intros H v Hv. now apply H. Qed.

Lemma hoare_lift (r : result A) (Q : A -> SceneView.t -> Prop) :
  (forall v, P v -> match r with Ok a => Q a v | Err e => E e v end) ->
  hoare P (SceneView.lift r) Q E.
Proof. intros H v Hv. specialize (H v Hv). unfold SceneView.lift. now destruct r. Qed.

Lemma hoare_weaken (m : SceneView.M A) (P' : SceneView.t -> Prop)
    (Q Q' : A -> SceneView.t -> Prop) (E' : exn -> SceneView.t -> Prop) :
  hoare P' m Q' E' ->
  (forall v, P v -> P' v) -> (forall a v, Q' a v -> Q a v) -> (forall e v, E' e v -> E e v) ->
  hoare P m Q E.
Proof.
  intros H HP HQ HE v Hv. specialize (H v (HP v Hv)).
  destruct (m v); [now apply HQ | now apply HE].
Qed.

End HoareRules.

Lemma hoare_get (P : SceneView.t -> Prop) (E : exn -> SceneView.t -> Prop)
    (Q : SceneView.t -> SceneView.t -> Prop) :
  (forall v, P v -> Q v v) -> hoare P SceneView.get Q E.
Proof. intros H v Hv. now apply H. Qed.

Lemma hoare_modify (P : SceneView.t -> Prop) (E : exn -> SceneView.t -> Prop)
    (f : SceneView.t -> SceneView.t) (Q : unit -> SceneView.t -> Prop) :
  (forall v, P v -> Q tt (f v)) -> hoare P (SceneView.modify f) Q E.
Proof. intros H v Hv. now apply H. Qed.

Lemma hoare_emit (P : SceneView.t -> Prop) (E : exn -> SceneView.t -> Prop)
    (eff : SceneView.effect) (Q : unit -> SceneView.t -> Prop) :
  (forall v, P v -> Q tt v) -> hoare P (SceneView.emit eff) Q E.
Proof. intros H v Hv. now apply H. Qed.

Lemma final_bind {A B : Type} (m : SceneView.M A) (k : A -> SceneView.M B) (v : SceneView.t) :
  SceneView.final (SceneView.bind m k v) =
    match m v with
    | SceneView.Returned a v1 _ => SceneView.final (k a v1)
    | SceneView.Raised _ v1 _ => v1
    end.
Proof.
  unfold SceneView.bind. destruct (m v) as [a v1 out1|e v1 out1]; [|reflexivity].
  destruct (k a v1); reflexivity.
Qed.

(** ** Clamping *)

Lemma clamp_value (lo hi z : Q) : lo <= z <= hi -> py_max lo (py_min hi z) == z.
Proof.
  intros [Hl Hh].
  assert (Hmin : py_min hi z == z).
  { unfold py_min. destruct (Qlt_bool z hi) eqn:E; [reflexivity|].
    apply Qlt_bool_false in E. now apply Qle_antisym. }
  unfold py_max. destruct (Qlt_bool lo (py_min hi z)) eqn:E; [exact Hmin|].
  apply Qlt_bool_false in E. rewrite Hmin in E. now apply Qle_antisym.
Qed.

Lemma clamp_below (z : Q) :
  z < SceneView._min_zoom ->
  py_max SceneView._min_zoom (py_min SceneView._max_zoom z) = SceneView._min_zoom.
Proof.
  intros Hz. pose proof min_le_max_zoom as Hmm.
  unfold py_min.
  assert (E : Qlt_bool z SceneView._max_zoom = true)
    by (apply Qlt_bool_true; eapply Qlt_le_trans; eassumption).
  rewrite E. unfold py_max.
  assert (E' : Qlt_bool SceneView._min_zoom z = false)
    by (apply Qlt_bool_false; now apply Qlt_le_weak).
  now rewrite E'.
Qed.

Lemma clamp_above (z : Q) :
  SceneView._max_zoom <= z ->
  py_max SceneView._min_zoom (py_min SceneView._max_zoom z) = SceneView._max_zoom.
Proof.
  intros Hz. unfold py_min.
  assert (E : Qlt_bool z SceneView._max_zoom = false) by (now apply Qlt_bool_false).
  rewrite E. reflexivity.
Qed.

(** X8: [set_zoom_level] stores the level clamped to [0.01, 100]: the lower
    bound for a smaller level, the upper bound for a larger one, the level
    itself otherwise; the camera position is not touched and a repaint is
    requested first. *)
Theorem set_zoom_level_clamps (level : Q) (v : SceneView.t) :
  let v' := SceneView.final (SceneView.set_zoom_level level v) in
  zoom_in_range v'
  /\ (level < SceneView._min_zoom -> SceneView._zoom v' = SceneView._min_zoom)
  /\ (SceneView._max_zoom < level -> SceneView._zoom v' = SceneView._max_zoom)
  /\ (SceneView._min_zoom <= level <= SceneView._max_zoom -> SceneView._zoom v' == level)
  /\ SceneView._position v' = SceneView._position v
  /\ exists rest,
       SceneView.output (SceneView.set_zoom_level level v) = SceneView.update :: rest.
Proof.
  intros v'.
  assert (Hv' : v' = SceneView.set_zoom
                       (py_max SceneView._min_zoom (py_min SceneView._max_zoom level)) v).
  { subst v'. unfold SceneView.set_zoom_level.
    rewrite final_bind. cbn [SceneView.modify]. rewrite final_bind. cbn [SceneView.emit].
    apply emit_status_final. }
  rewrite Hv'. cbn [SceneView._zoom SceneView._position SceneView.set_zoom].
  split; [apply (clamp_in_range _ _ _ min_le_max_zoom)|].
  split; [apply clamp_below|].
  split; [intros H; apply clamp_above; now apply Qlt_le_weak|].
  split; [apply clamp_value|]. split; [reflexivity|].
  unfold SceneView.set_zoom_level. rewrite output_bind. cbn [SceneView.modify app].
  rewrite output_bind. cbn [SceneView.emit app]. eexists. reflexivity.
Qed.

(** ** What a handler can do to the widget, and how it can fail *)

Lemma contains_point_err (item : Drawable.t) (P : QPointF) (e : exn) :
  Drawable.contains_point item P = Err e ->
  e = ZeroDivisionError /\ Drawable.degenerate item = true.
Proof.
  intros He. assert (Hd : Drawable.degenerate item = true)
    by (apply (contains_point_raises_iff item P); now exists e).
  split; [|exact Hd]. rewrite (contains_point_degenerate item P Hd) in He. congruence.
Qed.

Lemma first_containing_err (l : list Drawable.t) (P : QPointF) (e : exn) :
  SceneManager.first_containing l P = Err e ->
  e = ZeroDivisionError
  /\ exists item, In item l /\ Drawable.interactive item = true
                  /\ Drawable.degenerate item = true.
Proof.
  induction l as [|item rest IH]; [discriminate|].
  cbn [SceneManager.first_containing]. fold (Drawable.interactive item).
  destruct (Drawable.interactive item) eqn:Ei.
  - destruct (Drawable.contains_point item P) as [[|]|e'] eqn:Ec; cbn [result_bind].
    + discriminate.
    + intros H. destruct (IH H) as (He & it & Hin & Hi & Hd).
      split; [exact He|]. exists it. auto with datatypes.
    + intros [= <-]. destruct (contains_point_err _ _ _ Ec) as [He Hd].
      split; [exact He|]. exists item. auto with datatypes.
  - intros H. destruct (IH H) as (He & it & Hin & Hi & Hd).
    split; [exact He|]. exists it. auto with datatypes.
Qed.

(** The loop of [_emit_status] is the loop of [get_item_at_position] followed
    by the reading of the colour. *)
Lemma sample_color_spec (l : list Drawable.t) (scene_pos : QPointF) (c : QColor) :
  SceneView.sample_color l scene_pos c =
    match SceneManager.first_containing l scene_pos with
    | Ok (Some item) => Ok (match Drawable.color item with Some c' => c' | None => c end)
    | Ok None => Ok c
    | Err e => Err e
    end.
Proof.
  induction l as [|item rest IH]; [reflexivity|].
  cbn [SceneView.sample_color SceneManager.first_containing].
  destruct (Drawable.visible item && negb (Drawable.locked item)); [|exact IH].
  destruct (Drawable.contains_point item scene_pos) as [[|]|e]; cbn [result_bind];
    [reflexivity | exact IH | reflexivity].
Qed.

Lemma in_rev_get_items (m : SceneManager.t) (item : Drawable.t) :
  In item (rev (SceneManager.get_items m)) -> In item (SceneManager._items m).
Proof.
  intros H. apply in_rev in H.
  eapply Permutation_in; [apply sorted_by_z_perm | exact H].
Qed.

Lemma search_err (m : SceneManager.t) (P : QPointF) (e : exn) :
  SceneManager.first_containing (rev (SceneManager.get_items m)) P = Err e ->
  e = ZeroDivisionError /\ has_flat_ellipse m.
Proof.
  intros H. destruct (first_containing_err _ _ _ H) as (He & item & Hin & Hi & Hd).
  split; [exact He|]. exists item. split; [now apply in_rev_get_items | auto].
Qed.

Section HandlerSpecs.

Variable v0 : SceneView.t.

Ltac frame :=
  unfold within, zoom_in_range, same_frame in *;
  cbn [SceneView._zoom SceneView._scene_manager SceneView.width SceneView.height
       SceneView._scope_visible SceneView.set_position SceneView.set_zoom
       SceneView.set_is_panning SceneView.set_pan_start_pos
       SceneView.set_camera_start_pos SceneView.set_last_mouse_pos] in *;
  try tauto.

Lemma emit_status_hoare (ev : SceneView.event) :
  hoare (within v0) SceneView._emit_status (fun _ => within v0) (failure v0 ev).
Proof.
  intros v Hv. unfold SceneView._emit_status, SceneView.bind, SceneView.get,
    SceneView.lift, SceneView.emit.
  rewrite (screen_to_scene_ok v (proj1 Hv)). cbn beta iota.
  rewrite sample_color_spec.
  destruct (SceneManager.first_containing _ _) as [[item|]|e] eqn:Es; try exact Hv.
  destruct (search_err _ _ _ Es) as [He Hflat].
  split; [exact Hv|]. left. auto.
Qed.

Lemma zoom_to_cursor_hoare (E : exn -> SceneView.t -> Prop) (S : QPointF) (factor : Q) :
  hoare (within v0) (SceneView._zoom_to_cursor S factor) (fun _ => within v0) E.
Proof.
  intros v Hv. rewrite (zoom_to_cursor_returns v S factor (proj1 Hv)). cbv zeta.
  destruct Hv as [Hz Hf]. split.
  - exact (clamp_in_range _ _ (SceneView._zoom v * factor) min_le_max_zoom).
  - frame.
Qed.

Lemma click_items_hoare (ev : SceneView.event) (scene_pos : QPointF) :
  hoare (within v0)
    (fun v => SceneView.click_items
                (rev (SceneManager.get_items (SceneView._scene_manager v))) scene_pos v)
    (fun _ => within v0) (failure v0 ev).
Proof.
  intros v Hv. rewrite click_items_spec.
  destruct (SceneManager.first_containing _ _) as [[item|]|e] eqn:Es; try exact Hv.
  destruct (search_err _ _ _ Es) as [He Hflat].
  split; [exact Hv|]. left. auto.
Qed.

Lemma mousePressEvent_hoare (button : SceneView.MouseButton) (pos : QPointF) (alt : bool) :
  hoare (within v0) (SceneView.mousePressEvent button pos alt) (fun _ => within v0)
        (failure v0 (SceneView.MousePress button pos alt)).
Proof.
  unfold SceneView.mousePressEvent.
  apply hoare_bind with (Q := fun _ => within v0).
  - destruct (_ || _).
    + apply hoare_bind with (Q := fun _ => within v0); [apply hoare_modify; intros; frame|].
      intros _. apply hoare_bind with (Q := fun _ => within v0); [apply hoare_get; auto|].
      intros self. apply hoare_bind with (Q := fun _ => within v0);
        [apply hoare_modify; intros; frame|].
      intros _. apply hoare_modify; intros; frame.
    + intros v Hv. unfold SceneView.bind at 1. cbn [SceneView.get].
      unfold SceneView.bind at 1. unfold SceneView.lift.
      assert (Hpos : SceneView._screen_to_scene v (mkQPointF (px pos) (py pos))
                     = SceneView._screen_to_scene v pos) by (destruct pos; reflexivity).
      rewrite Hpos, (screen_to_scene_ok v (proj1 Hv)). cbn beta iota.
      pose proof (click_items_hoare (SceneView.MousePress button pos alt)
                    (mkQPointF
                       (px (SceneView._position v)
                        + (px pos - SceneView.widget_center_x v) / SceneView._zoom v)
                       (py (SceneView._position v)
                        + (py pos - SceneView.widget_center_y v) / SceneView._zoom v))
                    v Hv) as Hc.
      cbv beta in Hc. destruct (SceneView.click_items _ _ v); exact Hc.
  - intros _. apply hoare_bind with (Q := fun _ => within v0);
      [apply hoare_modify; intros; frame|].
    intros _. apply hoare_emit; auto.
Qed.

Lemma mouseMoveEvent_hoare (pos : QPointF) :
  hoare (within v0) (SceneView.mouseMoveEvent pos) (fun _ => within v0)
        (failure v0 (SceneView.MouseMove pos)).
Proof.
  unfold SceneView.mouseMoveEvent.
  apply hoare_bind with (Q := fun _ => within v0); [apply hoare_modify; intros; frame|].
  intros _. apply hoare_bind with (Q := fun a v => a = v /\ within v0 v);
    [apply hoare_get; auto|].
  intros self. apply hoare_bind with (Q := fun _ => within v0).
  - destruct (SceneView._is_panning self).
    + intros v [<- Hv].
      pose proof (zoom_nonzero self (proj1 Hv)) as Hnz.
      unfold SceneView.bind, SceneView.lift, SceneView.modify.
      rewrite !(truediv_ok _ _ Hnz). cbn beta iota. frame.
    + apply hoare_ret. tauto.
  - intros _. apply hoare_bind with (Q := fun _ => within v0); [apply hoare_emit; auto|].
    intros _. apply hoare_bind with (Q := fun _ => within v0); [apply emit_status_hoare|].
    intros _. apply hoare_emit; auto.
Qed.

Lemma mouseReleaseEvent_hoare (button : SceneView.MouseButton) (alt : bool) :
  hoare (within v0) (SceneView.mouseReleaseEvent button alt) (fun _ => within v0)
        (failure v0 (SceneView.MouseRelease button alt)).
Proof.
  unfold SceneView.mouseReleaseEvent.
  apply hoare_bind with (Q := fun _ => within v0).
  - unfold SceneView.release_ends_pan. destruct button; cbn [SceneView.is_button];
      try (apply hoare_ret; tauto).
    intros v Hv. unfold SceneView.bind, SceneView.get, SceneView.lift, SceneView.ret.
    destruct (SceneView._is_panning v) eqn:Ep; [|exact Hv].
    cbn. split; [exact Hv|]. right. split; [reflexivity|]. split; [exact Ep|].
    now exists alt.
  - intros ends. apply hoare_bind with (Q := fun _ => within v0).
    + destruct ends; [|apply hoare_ret; tauto].
      apply hoare_bind with (Q := fun _ => within v0); [apply hoare_modify; intros; frame|].
      intros _. apply hoare_bind with (Q := fun _ => within v0);
        [apply hoare_modify; intros; frame|].
      intros _. apply hoare_modify; intros; frame.
    + intros _. apply hoare_emit; auto.
Qed.

Lemma wheelEvent_hoare (pos : QPointF) (angle_delta_y : Z) :
  hoare (within v0) (SceneView.wheelEvent pos angle_delta_y) (fun _ => within v0)
        (failure v0 (SceneView.Wheel pos angle_delta_y)).
Proof.
  unfold SceneView.wheelEvent.
  apply hoare_bind with (Q := fun _ => within v0).
  - destruct (angle_delta_y >? 0)%Z; apply zoom_to_cursor_hoare.
  - intros _. apply hoare_emit; auto.
Qed.

Lemma reset_zoom_hoare (E : exn -> SceneView.t -> Prop) :
  hoare (within v0) SceneView._reset_zoom (fun _ => within v0) E.
Proof.
  unfold SceneView._reset_zoom.
  apply hoare_bind with (Q := fun a v => a = v /\ within v0 v); [apply hoare_get; auto|].
  intros self. apply hoare_bind with (Q := fun _ => within v0).
  - apply hoare_lift. intros v [<- Hv].
    now rewrite (truediv_ok _ _ (zoom_nonzero self (proj1 Hv))).
  - intros factor. apply zoom_to_cursor_hoare.
Qed.

Lemma keyPressEvent_hoare (key : SceneView.Key) :
  hoare (within v0) (SceneView.keyPressEvent key) (fun _ => within v0)
        (failure v0 (SceneView.KeyPress key)).
Proof.
  unfold SceneView.keyPressEvent.
  apply hoare_bind with (Q := fun a v => a = v /\ within v0 v); [apply hoare_get; auto|].
  intros self. apply hoare_bind with (Q := fun _ => within v0).
  - destruct (Qlt_bool (SceneView._zoom self) 1).
    + apply hoare_lift. intros v [<- Hv].
      now rewrite (truediv_ok _ _ (zoom_nonzero self (proj1 Hv))).
    + apply hoare_ret. tauto.
  - intros step_size. apply hoare_bind with (Q := fun _ => within v0).
    + destruct key;
        try (apply hoare_modify; intros; frame);
        try apply zoom_to_cursor_hoare;
        try apply reset_zoom_hoare.
    + intros _. apply hoare_bind with (Q := fun _ => within v0); [apply emit_status_hoare|].
      intros _. apply hoare_emit; auto.
Qed.

Lemma handle_hoare (ev : SceneView.event) :
  hoare (within v0) (SceneView.handle ev) (fun _ => within v0) (failure v0 ev).
Proof.
  destruct ev; cbn [SceneView.handle].
  - apply mousePressEvent_hoare.
  - apply mouseMoveEvent_hoare.
  - apply mouseReleaseEvent_hoare.
  - apply wheelEvent_hoare.
  - apply keyPressEvent_hoare.
Qed.

End HandlerSpecs.

Lemma same_frame_refl (v : SceneView.t) : same_frame v v.
Proof. unfold same_frame. tauto. Qed.

Lemma handle_all_hoare (v0 : SceneView.t) (evs : list SceneView.event) :
  hoare (within v0) (SceneView.handle_all evs) (fun _ => within v0)
        (fun e v => exists ev, In ev evs /\ failure v0 ev e v).
Proof.
  induction evs as [|ev rest IH]; cbn [SceneView.handle_all].
  - apply hoare_ret. auto.
  - apply hoare_bind with (Q := fun _ => within v0).
    + apply (hoare_weaken _ _ _ (within v0) _ (fun _ => within v0) (failure v0 ev)
               (handle_hoare v0 ev)); auto.
      intros e v H. exists ev. split; [now left | exact H].
    + intros _. apply (hoare_weaken _ _ _ (within v0) _ (fun _ => within v0) _ IH); auto.
      intros e v (ev' & Hin & H). exists ev'. split; [now right | exact H].
Qed.

(** X9: whatever events arrive, and however their handling ends, a zoom that
    was in [0.01, 100] stays there, and the registry, the size of the widget
    and the visibility of the crosshair are what they were. *)
Theorem handlers_keep_zoom_and_frame (evs : list SceneView.event) (v : SceneView.t) :
  zoom_in_range v ->
  zoom_in_range (SceneView.final (SceneView.handle_all evs v))
  /\ same_frame v (SceneView.final (SceneView.handle_all evs v)).
Proof.
  intros Hz.
  pose proof (handle_all_hoare v evs v (conj Hz (same_frame_refl v))) as H.
  destruct (SceneView.handle_all evs v) as [u v' out|e v' out]; cbn [SceneView.final].
  - exact H.
  - destruct H as (ev & _ & H & _). exact H.
Qed.

Lemma handlers_keep_zoom_and_frame_witness :
  zoom_in_range
    (SceneView.final
       (SceneView.handle_all
          [SceneView.Wheel (mkQPointF 10 10) 120; SceneView.KeyPress SceneView.Key_Left]
          scenario_view))
  /\ same_frame scenario_view
       (SceneView.final
          (SceneView.handle_all
             [SceneView.Wheel (mkQPointF 10 10) 120; SceneView.KeyPress SceneView.Key_Left]
             scenario_view)).
Proof.
  apply (handlers_keep_zoom_and_frame
           [SceneView.Wheel (mkQPointF 10 10) 120; SceneView.KeyPress SceneView.Key_Left]
           scenario_view).
  vm_compute. split; discriminate.
Defined.





(** ** Zoom commands *)

(** Zooming about the centre of the viewport does not move the camera. *)
Lemma zoom_at_centre (v : SceneView.t) (factor : Q) :
  zoom_in_range v ->
  exists v',
    SceneView._zoom_to_cursor
      (mkQPointF (SceneView.widget_center_x v) (SceneView.widget_center_y v)) factor v
    = SceneView.Returned tt v' []
    /\ SceneView._zoom v'
       = py_max SceneView._min_zoom
           (py_min SceneView._max_zoom (SceneView._zoom v * factor))
    /\ peq (SceneView._position v') (SceneView._position v)
    /\ same_frame v v'.
Proof.
  intros Hz. eexists. split; [apply (zoom_to_cursor_returns v _ factor Hz)|].
  split; [reflexivity|].
  pose proof (zoom_nonzero v Hz) as Hnz.
  pose proof (zoom_range_nonzero _
                (proj1 (clamp_in_range _ _ (SceneView._zoom v * factor) min_le_max_zoom)))
    as Hnz'.
  split; [|unfold same_frame; cbn; tauto].
  unfold peq. cbn [SceneView._position SceneView.set_position px py].
  split; field; auto.
Qed.



(** X13: zooming saturates. When the zoom times the factor is 100 or more the
    zoom becomes 100, and when it is below 0.01 the zoom becomes 0.01; a widget
    already at that bound keeps its camera position. *)
Theorem zoom_to_cursor_saturates (v : SceneView.t) (S : QPointF) (factor : Q) :
  zoom_in_range v ->
  let v' := SceneView.final (SceneView._zoom_to_cursor S factor v) in
  (SceneView._max_zoom <= SceneView._zoom v * factor ->
   SceneView._zoom v' = SceneView._max_zoom
   /\ (SceneView._zoom v == SceneView._max_zoom ->
       peq (SceneView._position v') (SceneView._position v)))
  /\ (SceneView._zoom v * factor < SceneView._min_zoom ->
      SceneView._zoom v' = SceneView._min_zoom
      /\ (SceneView._zoom v == SceneView._min_zoom ->
          peq (SceneView._position v') (SceneView._position v))).
Proof.
  intros Hz v'. subst v'. rewrite (zoom_to_cursor_returns v S factor Hz).
  cbv zeta. cbn [SceneView.final SceneView._zoom SceneView._position
                 SceneView.set_position SceneView.set_zoom].
  pose proof (zoom_nonzero v Hz) as Hnz.
  split; intros Hsat.
  - rewrite (clamp_above _ Hsat). split; [reflexivity|]. intros Heq.
    unfold peq. cbn [px py]. rewrite <- Heq. split; field; exact Hnz.
  - rewrite (clamp_below _ Hsat). split; [reflexivity|]. intros Heq.
    unfold peq. cbn [px py]. rewrite <- Heq. split; field; exact Hnz.
Qed.

Lemma zoom_to_cursor_saturates_witness :
  let v := SceneView.set_zoom 100 sample_view in
  let v' := SceneView.final (SceneView._zoom_to_cursor (mkQPointF 310 40) 1.25 v) in
  (SceneView._max_zoom <= SceneView._zoom v * 1.25 ->
   SceneView._zoom v' = SceneView._max_zoom
   /\ (SceneView._zoom v == SceneView._max_zoom ->
       peq (SceneView._position v') (SceneView._position v)))
  /\ (SceneView._zoom v * 1.25 < SceneView._min_zoom ->
      SceneView._zoom v' = SceneView._min_zoom
      /\ (SceneView._zoom v == SceneView._min_zoom ->
          peq (SceneView._position v') (SceneView._position v))).
Proof.
  apply (zoom_to_cursor_saturates (SceneView.set_zoom 100 sample_view)
           (mkQPointF 310 40) 1.25).
  vm_compute. split; discriminate.
Defined.



(** X15: the keyboard zoom commands anchor at the centre of the viewport while
    the recorded cursor position is the origin, so on such a widget [zoom_in]
    and [zoom_out] change the zoom and leave the camera where it was. *)
Theorem zoom_in_out_without_cursor (v : SceneView.t) :
  zoom_in_range v ->
  px (SceneView._last_mouse_pos v) == 0 ->
  py (SceneView._last_mouse_pos v) == 0 ->
  exists v1 v2,
    SceneView.zoom_in v = SceneView.Returned tt v1 []
    /\ SceneView.zoom_out v = SceneView.Returned tt v2 []
    /\ SceneView._zoom v1
       = py_max SceneView._min_zoom (py_min SceneView._max_zoom (SceneView._zoom v * 1.25))
    /\ SceneView._zoom v2
       = py_max SceneView._min_zoom
           (py_min SceneView._max_zoom (SceneView._zoom v * (1 / 1.25)))
    /\ peq (SceneView._position v1) (SceneView._position v)
    /\ peq (SceneView._position v2) (SceneView._position v).
Proof.
  intros Hz Hx Hy.
  assert (Hanchor : SceneView.zoom_anchor v
                    = mkQPointF (SceneView.widget_center_x v) (SceneView.widget_center_y v)).
  { unfold SceneView.zoom_anchor.
    now rewrite (Qeq_eq_bool _ _ Hx), (Qeq_eq_bool _ _ Hy). }
  destruct (zoom_at_centre v 1.25 Hz) as (v1 & Hr1 & Hz1 & Hp1 & _).
  destruct (zoom_at_centre v (1 / 1.25) Hz) as (v2 & Hr2 & Hz2 & Hp2 & _).
  exists v1, v2.
  unfold SceneView.zoom_in, SceneView.zoom_out, SceneView.bind. cbn [SceneView.get].
  rewrite Hanchor, Hr1, Hr2. repeat split; assumption || apply Hp1 || apply Hp2.
Qed.

Lemma zoom_in_out_without_cursor_witness :
  exists v1 v2,
    SceneView.zoom_in sample_view = SceneView.Returned tt v1 []
    /\ SceneView.zoom_out sample_view = SceneView.Returned tt v2 []
    /\ SceneView._zoom v1
       = py_max SceneView._min_zoom
           (py_min SceneView._max_zoom (SceneView._zoom sample_view * 1.25))
    /\ SceneView._zoom v2
       = py_max SceneView._min_zoom
           (py_min SceneView._max_zoom (SceneView._zoom sample_view * (1 / 1.25)))
    /\ peq (SceneView._position v1) (SceneView._position sample_view)
    /\ peq (SceneView._position v2) (SceneView._position sample_view).
Proof.
  apply (zoom_in_out_without_cursor sample_view).
  - vm_compute. split; discriminate.
  - reflexivity.
  - reflexivity.
Defined.

(** ** Arrow keys *)

Lemma final_emit_status_accept (v : SceneView.t) :
  SceneView.final
    (SceneView.bind SceneView._emit_status (fun _ => SceneView.emit SceneView.accept) v) = v.
Proof.
  rewrite final_bind. pose proof (emit_status_final v) as H.
  destruct (SceneView._emit_status v); exact H.
Qed.

Lemma keyPressEvent_step (v : SceneView.t) :
  zoom_in_range v ->
  (if Qlt_bool (SceneView._zoom v) 1
   then SceneView.lift (truediv 20 (SceneView._zoom v))
   else SceneView.ret (20 * SceneView._zoom v)) v
  = SceneView.Returned (arrow_step v) v [].
Proof.
  intros Hz. unfold arrow_step. destruct (Qlt_bool (SceneView._zoom v) 1); [|reflexivity].
  unfold SceneView.lift. now rewrite (truediv_ok _ _ (zoom_nonzero v Hz)).
Qed.




(** ** The status snapshot *)

(** What [_emit_status] sends. *)
Lemma emit_status_spec (ops : list SceneManager.op) (v : SceneView.t) :
  SceneView._scene_manager v = SceneManager.run ops ->
  zoom_in_range v ->
  exists scene_pos,
    SceneView._screen_to_scene v (SceneView._last_mouse_pos v) = Ok scene_pos
    /\ match SceneManager.get_item_at_position (SceneView._scene_manager v) scene_pos with
       | Ok r =>
           SceneView._emit_status v =
             SceneView.Returned tt v
               [SceneView.status_updated
                  {| SceneView.screen_pos := SceneView._last_mouse_pos v;
                     SceneView.scene_pos := scene_pos;
                     SceneView.color := reported_color r;
                     SceneView.zoom := SceneView._zoom v |}]
       | Err e => SceneView._emit_status v = SceneView.Raised e v []
       end.
Proof.
  intros Hsm Hz. pose proof (screen_to_scene_ok v Hz (SceneView._last_mouse_pos v)) as Hsp.
  eexists. split; [exact Hsp|].
  unfold SceneView._emit_status, SceneView.bind, SceneView.get, SceneView.lift,
    SceneView.emit.
  rewrite Hsp. cbn beta iota. rewrite sample_color_spec.
  unfold SceneManager.get_item_at_position. rewrite Hsm, get_items_run.
  destruct (SceneManager.first_containing _ _) as [[item|]|e]; reflexivity.
Qed.

(** X17: on a widget whose registry was built by its methods and whose zoom is
    in range, [_emit_status] sends one snapshot holding the recorded cursor
    position, the scene point under it, the zoom, and the colour of the item
    [get_item_at_position] returns for that scene point (gray (100, 100, 100)
    when it returns none or a widget wrapper, which has no colour); it raises
    exactly when that query does, and never changes the widget. *)
Theorem emit_status_reports_topmost (ops : list SceneManager.op) (v : SceneView.t) :
  SceneView._scene_manager v = SceneManager.run ops ->
  zoom_in_range v ->
  exists scene_pos,
    SceneView._screen_to_scene v (SceneView._last_mouse_pos v) = Ok scene_pos
    /\ match SceneManager.get_item_at_position (SceneView._scene_manager v) scene_pos with
       | Ok r =>
           SceneView._emit_status v =
             SceneView.Returned tt v
               [SceneView.status_updated
                  {| SceneView.screen_pos := SceneView._last_mouse_pos v;
                     SceneView.scene_pos := scene_pos;
                     SceneView.color := reported_color r;
                     SceneView.zoom := SceneView._zoom v |}]
       | Err e => SceneView._emit_status v = SceneView.Raised e v []
       end.
Proof.
  intros Hsm Hz. pose proof (screen_to_scene_ok v Hz (SceneView._last_mouse_pos v)) as Hsp.
  eexists. split; [exact Hsp|].
  unfold SceneView._emit_status, SceneView.bind, SceneView.get, SceneView.lift,
    SceneView.emit.
  rewrite Hsp. cbn beta iota. rewrite sample_color_spec.
  unfold SceneManager.get_item_at_position. rewrite Hsm, get_items_run.
  destruct (SceneManager.first_containing _ _) as [[item|]|e]; reflexivity.
Qed.

Lemma emit_status_reports_topmost_witness :
  exists scene_pos,
    SceneView._screen_to_scene scenario_view (SceneView._last_mouse_pos scenario_view)
      = Ok scene_pos
    /\ match SceneManager.get_item_at_position
               (SceneView._scene_manager scenario_view) scene_pos with
       | Ok r =>
           SceneView._emit_status scenario_view =
             SceneView.Returned tt scenario_view
               [SceneView.status_updated
                  {| SceneView.screen_pos := SceneView._last_mouse_pos scenario_view;
                     SceneView.scene_pos := scene_pos;
                     SceneView.color := reported_color r;
                     SceneView.zoom := SceneView._zoom scenario_view |}]
       | Err e => SceneView._emit_status scenario_view = SceneView.Raised e scenario_view []
       end.
Proof.
  apply (emit_status_reports_topmost scenario scenario_view).
  - reflexivity.
  - vm_compute. split; discriminate.
Defined.

(** X18: while no pan is in progress a pointer move changes nothing but the
    recorded cursor position: the camera stays, a repaint is requested and the
    status sent reports the new cursor position and the scene point under it. *)
Theorem idle_move_reports_cursor
    (ops : list SceneManager.op) (v : SceneView.t) (pos : QPointF) :
  SceneView._scene_manager v = SceneManager.run ops ->
  zoom_in_range v ->
  SceneView._is_panning v = false ->
  let v' := SceneView.set_last_mouse_pos (mkQPointF (px pos) (py pos)) v in
  exists scene_pos,
    SceneView._screen_to_scene v pos = Ok scene_pos
    /\ match SceneManager.get_item_at_position (SceneView._scene_manager v) scene_pos with
       | Ok r =>
           SceneView.mouseMoveEvent pos v =
             SceneView.Returned tt v'
               [SceneView.update;
                SceneView.status_updated
                  {| SceneView.screen_pos := mkQPointF (px pos) (py pos);
                     SceneView.scene_pos := scene_pos;
                     SceneView.color := reported_color r;
                     SceneView.zoom := SceneView._zoom v |};
                SceneView.accept]
       | Err e => SceneView.mouseMoveEvent pos v = SceneView.Raised e v' [SceneView.update]
       end.
Proof.
  intros Hsm Hz Hidle v'.
  assert (Hz' : zoom_in_range v') by exact Hz.
  destruct (emit_status_spec ops v' Hsm Hz') as (sp & Hsp & Hst).
  exists sp. split.
  - rewrite <- Hsp. subst v'. destruct pos; reflexivity.
  - change (SceneView._scene_manager v) with (SceneView._scene_manager v').
    unfold SceneView.mouseMoveEvent, SceneView.bind, SceneView.modify, SceneView.get,
      SceneView.emit, SceneView.ret.
    fold v'. replace (SceneView._is_panning v') with false by (symmetry; exact Hidle).
    destruct (SceneManager.get_item_at_position _ sp) as [r|e]; rewrite Hst; reflexivity.
Qed.

Lemma idle_move_reports_cursor_witness :
  let v' := SceneView.set_last_mouse_pos (mkQPointF 100 150) scenario_view in
  exists scene_pos,
    SceneView._screen_to_scene scenario_view (mkQPointF 100 150) = Ok scene_pos
    /\ match SceneManager.get_item_at_position
               (SceneView._scene_manager scenario_view) scene_pos with
       | Ok r =>
           SceneView.mouseMoveEvent (mkQPointF 100 150) scenario_view =
             SceneView.Returned tt v'
               [SceneView.update;
                SceneView.status_updated
                  {| SceneView.screen_pos := mkQPointF 100 150;
                     SceneView.scene_pos := scene_pos;
                     SceneView.color := reported_color r;
                     SceneView.zoom := SceneView._zoom scenario_view |};
                SceneView.accept]
       | Err e =>
           SceneView.mouseMoveEvent (mkQPointF 100 150) scenario_view
           = SceneView.Raised e v' [SceneView.update]
       end.
Proof.
  apply (idle_move_reports_cursor scenario scenario_view (mkQPointF 100 150)).
  - reflexivity.
  - vm_compute. split; discriminate.
  - reflexivity.
Defined.

(** ** The scale of the view *)



(** ** Painting *)

(** What [paint] does to a painter. *)
Lemma paint_spec (self : Drawable.t) (painter : Painting.QPainter) :
  Painting.current (Painting.paint self painter) = Painting.current painter
  /\ Painting.saved (Painting.paint self painter) = Painting.saved painter
  /\ exists s,
       Painting.canvas (Painting.paint self painter)
       = Painting.canvas painter
         ++ (if Drawable.visible self
             then [Painting.mkDrawn (Painting.primitive_of self) s]
             else [])
       /\ Painting.world s = Painting.world (Painting.current painter)
       /\ Painting.antialiasing s = Painting.antialiasing (Painting.current painter).
Proof.
  unfold Painting.paint, Painting.primitive_of.
  destruct (Drawable.visible self); cbn [negb].
  - destruct (Drawable.kind self); cbn; (split; [reflexivity|]); (split; [reflexivity|]);
      eexists; (split; [reflexivity|]); split; reflexivity.
  - split; [reflexivity|]. split; [reflexivity|].
    exists (Painting.current painter). rewrite app_nil_r. auto.
Qed.

(** X20: [paint] leaves the painter as it found it (transform, pen, brush,
    font and the stack of saved states) and adds to the canvas one drawing
    call for a visible item, made under the transform in force on entry, and
    nothing for an invisible one. *)
Theorem paint_restores_painter (self : Drawable.t) (painter : Painting.QPainter) :
  Painting.current (Painting.paint self painter) = Painting.current painter
  /\ Painting.saved (Painting.paint self painter) = Painting.saved painter
  /\ exists s,
       Painting.canvas (Painting.paint self painter)
       = Painting.canvas painter
         ++ (if Drawable.visible self
             then [Painting.mkDrawn (Painting.primitive_of self) s]
             else [])
       /\ Painting.world s = Painting.world (Painting.current painter)
       /\ Painting.antialiasing s = Painting.antialiasing (Painting.current painter).
Proof.
  unfold Painting.paint, Painting.primitive_of.
  destruct (Drawable.visible self); cbn [negb].
  - destruct (Drawable.kind self); cbn; (split; [reflexivity|]); (split; [reflexivity|]);
      eexists; (split; [reflexivity|]); split; reflexivity.
  - split; [reflexivity|]. split; [reflexivity|].
    exists (Painting.current painter). rewrite app_nil_r. auto.
Qed.

(** What the loop over the items adds to the canvas. *)
Lemma paint_items_spec (items : list Drawable.t) :
  forall painter : Painting.QPainter,
    Painting.current (Painting.paint_items items painter) = Painting.current painter
    /\ Painting.saved (Painting.paint_items items painter) = Painting.saved painter
    /\ map Painting.what (Painting.canvas (Painting.paint_items items painter))
       = map Painting.what (Painting.canvas painter)
         ++ map Painting.primitive_of (filter Drawable.visible items)
    /\ map (fun d => Painting.world (Painting.how d))
           (Painting.canvas (Painting.paint_items items painter))
       = map (fun d => Painting.world (Painting.how d)) (Painting.canvas painter)
         ++ map (fun _ => Painting.world (Painting.current painter))
                (filter Drawable.visible items).
Proof.
  induction items as [|item rest IH]; intros painter.
  - cbn. rewrite !app_nil_r. auto.
  - change (Painting.paint_items (item :: rest) painter)
      with (Painting.paint_items rest
              (if Drawable.visible item
               then Painting.restore (Painting.paint item (Painting.save painter))
               else painter)).
    cbn [filter].
    destruct (Drawable.visible item) eqn:Ev; [|apply IH].
    destruct (paint_spec item (Painting.save painter))
      as (Hc & Hs & s & Hcan & Hw & _).
    rewrite Ev in Hcan.
    set (p1 := Painting.restore (Painting.paint item (Painting.save painter))).
    assert (H1 : Painting.current p1 = Painting.current painter
                 /\ Painting.saved p1 = Painting.saved painter
                 /\ Painting.canvas p1
                    = Painting.canvas painter
                      ++ [Painting.mkDrawn (Painting.primitive_of item) s]).
    { subst p1. unfold Painting.restore. rewrite Hs. cbn. auto. }
    destruct H1 as (Hc1 & Hs1 & Hcan1).
    destruct (IH p1) as (IHc & IHs & IHw & IHt).
    rewrite IHc, IHs, IHw, IHt, Hc1, Hs1, Hcan1, !map_app. cbn [map].
    rewrite <- !app_assoc. cbn [app Painting.what Painting.how]. rewrite Hw.
    cbn. auto.
Qed.

(** X21: with the zoom in range [paintEvent] returns with every [save]
    matched by a [restore]; it draws, in this order, the background, one
    primitive for each visible item in ascending z-order, the two origin lines
    and the origin point, and, when the crosshair is visible, its two lines. The
    items and the origin marker are drawn under the camera transform; the
    background and the crosshair under none. *)
Theorem paintEvent_layers (v : SceneView.t) :
  zoom_in_range v ->
  exists painter background,
    Painting.paintEvent v = Ok painter
    /\ Painting.saved painter = []
    /\ (exists x y w h g, background = Painting.fillRect x y w h g)
    /\ let visible_items :=
         filter Drawable.visible (SceneManager.get_items (SceneView._scene_manager v)) in
       map Painting.what (Painting.canvas painter)
       = background
         :: map Painting.primitive_of visible_items
         ++ [Painting.drawLine 0 (-10000) 0 10000;
             Painting.drawLine (-10000) 0 10000 0;
             Painting.drawPoint 0 0]
         ++ (if SceneView._scope_visible v
             then [Painting.drawLine 0 (Painting.int (py (SceneView._last_mouse_pos v)))
                     (SceneView.width v) (Painting.int (py (SceneView._last_mouse_pos v)));
                   Painting.drawLine (Painting.int (px (SceneView._last_mouse_pos v))) 0
                     (Painting.int (px (SceneView._last_mouse_pos v))) (SceneView.height v)]
             else [])
       /\ map (fun d => Painting.world (Painting.how d)) (Painting.canvas painter)
          = Painting.identity
            :: map (fun _ => Painting.camera_transform v) visible_items
            ++ [Painting.camera_transform v; Painting.camera_transform v;
                Painting.camera_transform v]
            ++ (if SceneView._scope_visible v
                then [Painting.identity; Painting.identity]
                else []).
Proof.
  intros Hz. pose proof (zoom_nonzero v Hz) as Hnz.
  assert (Hnz2 : ~ 2 * SceneView._zoom v == 0).
  { intros H. apply Hnz. apply Qmult_integral in H. destruct H as [H|H]; [discriminate H|exact H]. }
  unfold Painting.paintEvent, Painting._draw_background.
  rewrite !(truediv_ok _ _ Hnz), !(truediv_ok _ _ Hnz2). cbn [result_bind].
  match goal with
  | |- context [Painting.paint_items ?l ?p] =>
      destruct (paint_items_spec l p) as (Hc & Hs & Hw & Ht);
      set (after_items := Painting.paint_items l p) in *
  end.
  cbn in Hc, Hs, Hw, Ht.
  eexists. eexists. split; [reflexivity|].
  split.
  { destruct (SceneView._scope_visible v); cbn; rewrite ?Hs; reflexivity. }
  split; [do 5 eexists; reflexivity|].
  cbv zeta. split.
  - destruct (SceneView._scope_visible v);
      cbn; rewrite ?map_app, Hw; cbn; rewrite <- ?app_assoc; reflexivity.
  - destruct (SceneView._scope_visible v);
      cbn; rewrite ?map_app, Ht, Hc; cbn; rewrite <- ?app_assoc; reflexivity.
Qed.

Lemma paintEvent_layers_witness :
  exists painter background,
    Painting.paintEvent scenario_view = Ok painter
    /\ Painting.saved painter = []
    /\ (exists x y w h g, background = Painting.fillRect x y w h g)
    /\ let visible_items :=
         filter Drawable.visible
           (SceneManager.get_items (SceneView._scene_manager scenario_view)) in
       map Painting.what (Painting.canvas painter)
       = background
         :: map Painting.primitive_of visible_items
         ++ [Painting.drawLine 0 (-10000) 0 10000;
             Painting.drawLine (-10000) 0 10000 0;
             Painting.drawPoint 0 0]
         ++ (if SceneView._scope_visible scenario_view
             then [Painting.drawLine 0
                     (Painting.int (py (SceneView._last_mouse_pos scenario_view)))
                     (SceneView.width scenario_view)
                     (Painting.int (py (SceneView._last_mouse_pos scenario_view)));
                   Painting.drawLine
                     (Painting.int (px (SceneView._last_mouse_pos scenario_view))) 0
                     (Painting.int (px (SceneView._last_mouse_pos scenario_view)))
                     (SceneView.height scenario_view)]
             else [])
       /\ map (fun d => Painting.world (Painting.how d)) (Painting.canvas painter)
          = Painting.identity
            :: map (fun _ => Painting.camera_transform scenario_view) visible_items
            ++ [Painting.camera_transform scenario_view;
                Painting.camera_transform scenario_view;
                Painting.camera_transform scenario_view]
            ++ (if SceneView._scope_visible scenario_view
                then [Painting.identity; Painting.identity]
                else []).
Proof.
  apply (paintEvent_layers scenario_view). vm_compute. split; discriminate.
Defined.


(** ** The action registry *)







(** ** The tabs *)

Lemma remove_nth_length (n : nat) (l : list SceneWorkspace.tab) :
  (List.length l <= S (List.length (SceneWorkspace.remove_nth n l)))%nat
  /\ (n < List.length l -> S (List.length (SceneWorkspace.remove_nth n l)) = List.length l)%nat
  /\ (List.length l <= n -> SceneWorkspace.remove_nth n l = l)%nat.
Proof.
  revert n. induction l as [|x rest IH]; intros n.
  - destruct n; cbn; repeat split; auto; lia.
  - destruct n; cbn [SceneWorkspace.remove_nth List.length].
    + repeat split; auto; lia.
    + destruct (IH n) as (H1 & H2 & H3). repeat split.
      * lia.
      * intros H. rewrite H2; lia.
      * intros H. f_equal. apply H3. lia.
Qed.

(** X24: a workspace always has a tab. It opens with one; [new_tab] adds one
    at the end, holding a view at zoom 1 centred on the origin over an empty
    registry of its own; [close_tab] removes the tab at a valid index when
    there are at least two, and with a single tab it removes nothing and prints
    that the last tab cannot be closed. *)
Theorem workspace_keeps_a_tab
    (update_slot : bool) (w h : Z) (ops : list SceneWorkspace.op) :
  let ws := fold_left SceneWorkspace.apply ops (SceneWorkspace.init update_slot w h) in
  (1 <= List.length (SceneWorkspace.tabs ws))%nat
  /\ (forall w' h',
        let (ws', view) := SceneWorkspace.new_tab w' h' ws in
        List.length (SceneWorkspace.tabs ws') = S (List.length (SceneWorkspace.tabs ws))
        /\ SceneView._zoom view = 1
        /\ SceneView._position view = mkQPointF 0 0
        /\ SceneManager.get_items (SceneView._scene_manager view) = [])
  /\ (forall index,
        if (1 <? List.length (SceneWorkspace.tabs ws))%nat
        then snd (SceneWorkspace.close_tab index ws) = []
             /\ ((0 <= index < Z.of_nat (List.length (SceneWorkspace.tabs ws)))%Z ->
                 S (List.length (SceneWorkspace.tabs (fst (SceneWorkspace.close_tab index ws))))
                 = List.length (SceneWorkspace.tabs ws))
             /\ (~ (0 <= index < Z.of_nat (List.length (SceneWorkspace.tabs ws)))%Z ->
                 SceneWorkspace.tabs (fst (SceneWorkspace.close_tab index ws))
                 = SceneWorkspace.tabs ws)
        else SceneWorkspace.close_tab index ws
             = (ws, ["Cannot close the last tab."%string])).
Proof.
  intros ws. split; [|split].
  - subst ws.
    assert (Hinit : (1 <= List.length (SceneWorkspace.tabs (SceneWorkspace.init update_slot w h)))%nat)
      by (cbn; lia).
    revert Hinit. generalize (SceneWorkspace.init update_slot w h).
    induction ops as [|o rest IH]; intros s Hs; [exact Hs|].
    cbn [fold_left]. apply IH. destruct o as [w' h'|index]; cbn [SceneWorkspace.apply].
    + cbn. rewrite length_app. cbn. lia.
    + unfold SceneWorkspace.close_tab.
      destruct (1 <? List.length (SceneWorkspace.tabs s))%nat eqn:E; [|exact Hs].
      apply Nat.ltb_lt in E. cbn [fst]. unfold SceneWorkspace.removeTab.
      destruct (index <? 0)%Z; [exact Hs|]. cbn [SceneWorkspace.tabs].
      pose proof (remove_nth_length (Z.to_nat index) (SceneWorkspace.tabs s)) as (H1 & _).
      lia.
  - intros w' h'. cbn. rewrite length_app. cbn. repeat split; lia.
  - intros index. unfold SceneWorkspace.close_tab.
    destruct (1 <? List.length (SceneWorkspace.tabs ws))%nat eqn:E; [|reflexivity].
    cbn [fst snd]. split; [reflexivity|]. unfold SceneWorkspace.removeTab.
    pose proof (remove_nth_length (Z.to_nat index) (SceneWorkspace.tabs ws)) as (_ & H2 & H3).
    split.
    + intros [Hlo Hhi]. assert (Ei : (index <? 0)%Z = false) by (apply Z.ltb_ge; lia).
      rewrite Ei. cbn [SceneWorkspace.tabs]. apply H2. lia.
    + intros Hout. destruct (index <? 0)%Z eqn:Ei; [reflexivity|].
      apply Z.ltb_ge in Ei. cbn [SceneWorkspace.tabs]. apply H3. lia.
Qed.

(** ** A whole drag, and the keys that do not zoom *)

(** X25: a drag with the middle button (press at [P0], move to [M], release):
    whatever became of the status emission of the move, the release returns
    and leaves no pan in progress, the anchors cleared, the zoom unchanged, the
    cursor recorded at [M], and the camera moved by [-(M - P0) / zoom]. *)
Theorem middle_drag (v0 : SceneView.t) (P0 M : QPointF) (alt alt' : bool) :
  zoom_in_range v0 ->
  let v1 := SceneView.final (SceneView.mousePressEvent SceneView.MiddleButton P0 alt v0) in
  let v2 := SceneView.final (SceneView.mouseMoveEvent M v1) in
  exists v3,
    SceneView.mouseReleaseEvent SceneView.MiddleButton alt' v2
      = SceneView.Returned tt v3 [SceneView.accept]
    /\ SceneView._is_panning v3 = false
    /\ SceneView._pan_start_pos v3 = mkQPointF 0 0
    /\ SceneView._camera_start_pos v3 = mkQPointF 0 0
    /\ SceneView._zoom v3 = SceneView._zoom v0
    /\ SceneView._last_mouse_pos v3 = mkQPointF (px M) (py M)
    /\ px (SceneView._position v3)
       == px (SceneView._position v0) - (px M - px P0) / SceneView._zoom v0
    /\ py (SceneView._position v3)
       == py (SceneView._position v0) - (py M - py P0) / SceneView._zoom v0.
Proof.
  intros Hz v1 v2. pose proof (zoom_nonzero v0 Hz) as Hnz.
  destruct (mousePressEvent_starts_pan v0 SceneView.MiddleButton alt P0 eq_refl)
    as (w1 & Hret & (Hp & Hs & Hc & Hzm & Hw & Hh) & _).
  assert (Hv1 : v1 = w1) by (subst v1; now rewrite Hret).
  assert (Hv2 : v2 = SceneView.final (SceneView.mouseMoveEvent M w1)) by (subst v2; now rewrite Hv1).
  rewrite mouseMoveEvent_final in Hv2 by (rewrite Hzm; exact Hnz).
  cbv zeta in Hv2. rewrite Hp, Hs, Hc, Hzm in Hv2.
  eexists. split; [reflexivity|]. rewrite Hv2.
  cbn [SceneView._is_panning SceneView._pan_start_pos SceneView._camera_start_pos
       SceneView._zoom SceneView._last_mouse_pos SceneView._position
       SceneView.set_is_panning SceneView.set_pan_start_pos SceneView.set_camera_start_pos
       SceneView.set_position SceneView.set_last_mouse_pos px py].
  repeat split; try reflexivity; try exact Hzm; field; exact Hnz.
Qed.

Lemma middle_drag_witness :
  let v1 := SceneView.final
              (SceneView.mousePressEvent SceneView.MiddleButton (mkQPointF 120 80) false
                 sample_view) in
  let v2 := SceneView.final (SceneView.mouseMoveEvent (mkQPointF 260 33) v1) in
  exists v3,
    SceneView.mouseReleaseEvent SceneView.MiddleButton false v2
      = SceneView.Returned tt v3 [SceneView.accept]
    /\ SceneView._is_panning v3 = false
    /\ SceneView._pan_start_pos v3 = mkQPointF 0 0
    /\ SceneView._camera_start_pos v3 = mkQPointF 0 0
    /\ SceneView._zoom v3 = SceneView._zoom sample_view
    /\ SceneView._last_mouse_pos v3 = mkQPointF (px (mkQPointF 260 33)) (py (mkQPointF 260 33))
    /\ px (SceneView._position v3)
       == px (SceneView._position sample_view)
          - (px (mkQPointF 260 33) - px (mkQPointF 120 80)) / SceneView._zoom sample_view
    /\ py (SceneView._position v3)
       == py (SceneView._position sample_view)
          - (py (mkQPointF 260 33) - py (mkQPointF 120 80)) / SceneView._zoom sample_view.
Proof.
  apply (middle_drag sample_view (mkQPointF 120 80) (mkQPointF 260 33) false false).
  vm_compute. split; discriminate.
Defined.

(** X26: with the zoom in range, [Home] and [H] put the camera on the scene
    origin and touch nothing else, the zoom included; a key with no binding
    leaves the widget as it is. *)
Theorem home_and_unbound_keys (v : SceneView.t) :
  zoom_in_range v ->
  SceneView.final (SceneView.keyPressEvent SceneView.Key_Home v)
    = SceneView.set_position (mkQPointF 0 0) v
  /\ SceneView.final (SceneView.keyPressEvent SceneView.Key_H v)
     = SceneView.set_position (mkQPointF 0 0) v
  /\ SceneView.final (SceneView.keyPressEvent SceneView.Key_Other v) = v.
Proof.
  intros Hz. unfold SceneView.keyPressEvent.
  rewrite !final_bind. cbn [SceneView.get]. rewrite !final_bind.
  rewrite (keyPressEvent_step v Hz). rewrite !final_bind.
  cbn [SceneView._center_on SceneView.modify SceneView.ret px py].
  rewrite !final_emit_status_accept. auto.
Qed.

Lemma home_and_unbound_keys_witness :
  SceneView.final (SceneView.keyPressEvent SceneView.Key_Home sample_view)
    = SceneView.set_position (mkQPointF 0 0) sample_view
  /\ SceneView.final (SceneView.keyPressEvent SceneView.Key_H sample_view)
     = SceneView.set_position (mkQPointF 0 0) sample_view
  /\ SceneView.final (SceneView.keyPressEvent SceneView.Key_Other sample_view) = sample_view.
Proof.
  apply (home_and_unbound_keys sample_view). vm_compute. split; discriminate.
Defined.
